(** * wenyan-mcp: the WeChat draft-box adapter

    A shallow embedding of [src/index.ts] (the tool router) and
    [src/wechat-api.ts] (token client, permanent-material uploader, draft
    composer), and the properties of the publishing flow proved over it.

    Outbound effects (HTTP fetches, file reads, calls into the
    [@wenyan-md/core] collaborators) are threaded through a small
    trace-and-error monad: every outbound call asks an oracle of the world
    for its outcome and appends one event to the trace, and a thrown
    [Error] is an [Err] carrying its message. *)

From Stdlib Require Import String Ascii List ZArith Bool Lia DecimalString.
Import ListNotations.
Open Scope string_scope.

(* ================================================================== *)
(** ** JavaScript values *)
(* ================================================================== *)

Module Js.

(** What a parsed JSON body, or a property read from it, can be.  Numbers
    are the integers (error codes, HTTP statuses); [VUndefined] is what a
    property read yields for an absent key. *)
#[warnings="-register-all"]
Inductive value : Type :=
| VUndefined
| VNull
| VBool (b : bool)
| VNum (n : Z)
| VStr (s : string)
| VArr (xs : list value)
| VObj (fields : list (string * value)).

(** A value or a thrown [Error] with its message. *)
Inductive Result (A : Type) : Type :=
| Ok (a : A)
| Err (msg : string).
Arguments Ok {A} a.
Arguments Err {A} msg.

Definition is_ok {A} (r : Result A) : bool :=
  match r with Ok _ => true | Err _ => false end.

(** ToBoolean: [if (x)], [!x], [x || y]. *)
Definition truthy (v : value) : bool :=
  match v with
  | VUndefined | VNull => false
  | VBool b => b
  | VNum n => negb (n =? 0)%Z
  | VStr s => negb (s =? "")
  | VArr _ | VObj _ => true
  end.

(** [a || b] *)
Definition or_else (a b : value) : value :=
  if truthy a then a else b.

(** [!s] on a string. *)
Definition str_falsy (s : string) : bool := (s =? "").

(** Number to string, for integers. *)
Definition string_of_Z (n : Z) : string :=
  NilZero.string_of_int (Z.to_int n).

(** ToString, as a template literal [`${v}`] applies it.  An array is its
    elements joined by commas, [null] and [undefined] elements giving the
    empty string. *)
Fixpoint toString (v : value) : string :=
  match v with
  | VUndefined => "undefined"
  | VNull => "null"
  | VBool true => "true"
  | VBool false => "false"
  | VNum n => string_of_Z n
  | VStr s => s
  | VArr xs =>
      (fix join (l : list value) : string :=
         match l with
         | [] => ""
         | x :: rest =>
             let sx := match x with
                       | VUndefined | VNull => ""
                       | _ => toString x
                       end in
             match rest with
             | [] => sx
             | _ :: _ => sx ++ "," ++ join rest
             end
         end) xs
  | VObj _ => "[object Object]"
  end.

(** Own-property lookup in an object literal. *)
Fixpoint lookup (k : string) (fields : list (string * value)) : value :=
  match fields with
  | [] => VUndefined
  | (k', v) :: rest => if k' =? k then v else lookup k rest
  end.

Definition TypeError_null (k : string) : string :=
  "Cannot read properties of null (reading '" ++ k ++ "')".

(** [data.k] for the keys the helpers read ([errcode], [errmsg],
    [access_token], [media_id]), none of which lives on a built-in
    prototype: an object yields its field or [undefined], a primitive or an
    array yields [undefined], and [null] throws a TypeError. *)
Definition prop (data : value) (k : string) : Result value :=
  match data with
  | VUndefined | VNull => Err (TypeError_null k)
  | VObj fields => Ok (lookup k fields)
  | _ => Ok VUndefined
  end.

(** [s.startsWith(p)] *)
Definition startsWith (s p : string) : bool := String.prefix p s.

(** [s.split("/")] with a one-character separator: never the empty array. *)
Fixpoint split (sep : ascii) (s : string) : list string :=
  match s with
  | EmptyString => [""]
  | String a r =>
      if Ascii.eqb a sep then "" :: split sep r
      else match split sep r with
           | h :: t => String a h :: t
           | [] => [String a ""]
           end
  end.

(** [arr.pop()]: the last element, [undefined] on the empty array. *)
Fixpoint pop (l : list string) : option string :=
  match l with
  | [] => None
  | [x] => Some x
  | _ :: rest => pop rest
  end.

(** [x || d] where [x] is a string or [undefined]. *)
Definition str_or (x : option string) (d : string) : string :=
  match x with
  | Some s => if str_falsy s then d else s
  | None => d
  end.

End Js.
Export Js.

(* ================================================================== *)
(** ** [path.basename] (POSIX flavour) *)
(* ================================================================== *)

Module Path.

Definition slash : ascii := "/"%char.

Fixpoint drop_slashes (l : list ascii) : list ascii :=
  match l with
  | [] => []
  | a :: r => if Ascii.eqb a slash then drop_slashes r else l
  end.

Fixpoint take_segment (l : list ascii) : list ascii :=
  match l with
  | [] => []
  | a :: r => if Ascii.eqb a slash then [] else a :: take_segment r
  end.

(** Node scans the path from its end: trailing separators are skipped, then
    the characters up to the previous separator (or the start) are kept. *)
Definition basename (p : string) : string :=
  string_of_list_ascii
    (rev (take_segment (drop_slashes (rev (list_ascii_of_string p))))).

End Path.

(* ================================================================== *)
(** ** The outside world: requests, responses, the trace monad *)
(* ================================================================== *)

Module Net.

(** One part of a multipart form: an in-memory [Blob], the [File] that
    [fileFromPath] gives, or a text field holding [JSON.stringify] of a
    value (kept as the value). *)
Inductive Part : Type :=
| Blob (bytes : string)
| FileOf (path : string) (bytes : string)
| JsonText (v : value).

Record Field : Type := mkField {
  field_name : string;
  field_part : Part;
  field_filename : option string
}.

(** [fetch(url)], [fetch(url, {method: "POST", body: form})] and
    [fetch(url, {method: "POST", headers: json, body: JSON.stringify(v)})];
    the stringified body is kept as the value. *)
Inductive Request : Type :=
| GET (url : string)
| POST_form (url : string) (form : list Field)
| POST_json (url : string) (body : value).

(** What the helpers read of a [Response]: [ok], [status], [body] ([None]
    for a null body; [text()] and [arrayBuffer()] give its content) and the
    outcome of [json()], which throws when the body is not JSON. *)
Record Response : Type := mkResponse {
  resp_ok : bool;
  resp_status : Z;
  resp_body : option string;
  resp_json : Result value
}.

Definition resp_text (r : Response) : string :=
  match resp_body r with Some s => s | None => "" end.

(** What [getGzhContent] resolves to. *)
Record GzhContent : Type := mkGzh {
  gzh_title : option string;
  gzh_cover : option string;
  gzh_content : string
}.

Record Theme : Type := mkTheme {
  theme_id : string;
  theme_name : string;
  theme_description : string
}.

(** One outbound call with its outcome. *)
Inductive Event : Type :=
| EFetch (req : Request) (out : Result Response)
| EFile (path : string) (out : Result string)
| EFormat (content themeId hl : string) (fm cover : bool)
          (out : Result GzhContent)
| EPublish (title content cover : string) (out : Result value).

Definition Trace : Type := list Event.

(** The world answers every outbound call, knowing all that happened
    before it; [process.env], the URL parser and the theme catalog are
    part of it too. *)
Record World : Type := mkWorld {
  env : string -> option string;
  fetch_of : Trace -> Request -> Result Response;
  file_of : Trace -> string -> Result string;
  pathname_of : string -> Result string;
  format_of : Trace -> string -> string -> string -> bool -> bool ->
              Result GzhContent;
  publish_of : Trace -> string -> string -> string -> Result value;
  themes : list Theme
}.

(** A computation reads the world, extends the trace, and returns or
    throws. *)
Definition M (A : Type) : Type := World -> Trace -> Result A * Trace.

Definition ret {A} (a : A) : M A := fun _ t => (Ok a, t).

Definition throw {A} (msg : string) : M A := fun _ t => (Err msg, t).

Definition bind {A B} (m : M A) (k : A -> M B) : M B :=
  fun w t =>
    match m w t with
    | (Ok a, t') => k a w t'
    | (Err e, t') => (Err e, t')
    end.

Definition lift {A} (r : Result A) : M A := fun _ t => (r, t).

Notation "x <- m ;; k" := (bind m (fun x => k))
  (at level 61, m at next level, right associativity).

(** [await fetch(...)] *)
Definition fetch (req : Request) : M Response :=
  fun w t => let out := fetch_of w t req in (out, (t ++ [EFetch req out])%list).

(** [await fileFromPath(path)] *)
Definition fileFromPath (path : string) : M Part :=
  fun w t =>
    let out := file_of w t path in
    (match out with Ok b => Ok (FileOf path b) | Err e => Err e end,
     (t ++ [EFile path out])%list).

(** [new URL(s).pathname] *)
Definition pathname (s : string) : M string :=
  fun w t => (pathname_of w s, t).

(** [process.env.NAME] *)
Definition getenv (name : string) : M (option string) :=
  fun w t => (Ok (env w name), t).

(** [await getGzhContent(content, themeId, hl, fm, cover)] *)
Definition getGzhContent (content themeId hl : string) (fm cover : bool)
  : M GzhContent :=
  fun w t =>
    let out := format_of w t content themeId hl fm cover in
    (out, (t ++ [EFormat content themeId hl fm cover out])%list).

(** [await publishToDraft(title, content, cover)] *)
Definition publishToDraft (title content cover : string) : M value :=
  fun w t =>
    let out := publish_of w t title content cover in
    (out, (t ++ [EPublish title content cover out])%list).

End Net.
Export Net.

(* ================================================================== *)
(** ** [src/wechat-api.ts] *)
(* ================================================================== *)

Module WechatApi.

Definition token_url (appId appSecret : string) : string :=
  "https://api.weixin.qq.com/cgi-bin/token?grant_type=client_credential&appid="
  ++ appId ++ "&secret=" ++ appSecret.

Definition token_failed : string := "获取 access_token 失败: ".
Definition token_missing : string :=
  "获取 access_token 失败: 响应中未包含 access_token".

(** Lines 33-41: what [getAccessToken] does with the parsed body. *)
Definition token_of_data (data : value) : Result value :=
  match prop data "errcode" with
  | Err e => Err e
  | Ok errcode =>
      if truthy errcode then
        match prop data "errmsg" with
        | Err e => Err e
        | Ok errmsg => Err (token_failed ++ toString (or_else errmsg errcode))
        end
      else
        match prop data "access_token" with
        | Err e => Err e
        | Ok tok => if negb (truthy tok) then Err token_missing else Ok tok
        end
  end.

Definition getAccessToken (appId appSecret : string) : M value :=
  response <- fetch (GET (token_url appId appSecret)) ;;
  data <- lift (resp_json response) ;;
  lift (token_of_data data).

Inductive MaterialType : Type := image | video.

Definition type_name (ty : MaterialType) : string :=
  match ty with image => "image" | video => "video" end.

Definition defaultFilename (ty : MaterialType) : string :=
  match ty with video => "video.mp4" | image => "image.jpg" end.

(** The test of line 108 (and again of line 128). *)
Definition is_remote (filePath : string) : bool :=
  startsWith filePath "http://" || startsWith filePath "https://".

Definition material_url (accessToken : value) (ty : MaterialType) : string :=
  "https://api.weixin.qq.com/cgi-bin/material/add_material?access_token="
  ++ toString accessToken ++ "&type=" ++ type_name ty.

Definition download_failed (filePath : string) : string :=
  "Failed to download file from URL: " ++ filePath.
Definition upload_failed : string := "上传永久素材失败: ".
Definition upload_missing : string :=
  "上传永久素材失败: 响应中未包含 media_id".

(** Line 115: [urlPath.split("/").pop() || defaultFilename]. *)
Definition remote_filename (urlPath : string) (ty : MaterialType) : string :=
  str_or (pop (Js.split "/" urlPath)) (defaultFilename ty).

(** Lines 108-122: the file object and the name it is attached under. *)
Definition resolve_source (filePath : string) (ty : MaterialType)
  : M (Part * string) :=
  if is_remote filePath then
    response <- fetch (GET filePath) ;;
    if negb (resp_ok response) ||
       match resp_body response with Some _ => false | None => true end
    then throw (download_failed filePath)
    else
      urlPath <- pathname filePath ;;
      ret (Blob (resp_text response), remote_filename urlPath ty)
  else
    file <- fileFromPath filePath ;;
    ret (file, Path.basename filePath).

(** Lines 127-139: both branches of line 128 append the same field; the
    description is a JSON object, always truthy when given. *)
Definition build_form (file : Part) (filename : string) (ty : MaterialType)
    (description : option value) : list Field :=
  mkField "media" file (Some filename) ::
  match ty, description with
  | video, Some d => [mkField "description" (JsonText d) None]
  | _, _ => []
  end.

(** Lines 156-164, and again lines 205-213 with the draft messages: what
    the uploader and the draft composer do with the parsed body. *)
Definition media_id_of_data (failed missing : string) (data : value)
  : Result value :=
  match prop data "errcode" with
  | Err e => Err e
  | Ok errcode =>
      if truthy errcode then
        match prop data "errmsg" with
        | Err e => Err e
        | Ok errmsg => Err (failed ++ toString (or_else errmsg errcode))
        end
      else
        match prop data "media_id" with
        | Err e => Err e
        | Ok mid => if negb (truthy mid) then Err missing else Ok mid
        end
  end.

Definition uploadPermanentMaterial (accessToken : value) (filePath : string)
    (ty : MaterialType) (description : option value) : M value :=
  src <- resolve_source filePath ty ;;
  let form := build_form (fst src) (snd src) ty description in
  response <- fetch (POST_form (material_url accessToken ty) form) ;;
  if negb (resp_ok response) then
    throw (upload_failed ++ string_of_Z (resp_status response) ++ " "
           ++ resp_text response)
  else
    data <- lift (resp_json response) ;;
    lift (media_id_of_data upload_failed upload_missing data).

Definition draft_url (accessToken : value) : string :=
  "https://api.weixin.qq.com/cgi-bin/draft/add?access_token="
  ++ toString accessToken.

Definition draft_failed : string := "发布图片消息失败: ".
Definition draft_missing : string :=
  "发布图片消息失败: 响应中未包含 media_id".

(** Lines 185-187 *)
Definition image_list (imageMediaIds : list value) : list value :=
  map (fun mediaId => VObj [("image_media_id", mediaId)]) imageMediaIds.

(** Lines 178-193 *)
Definition requestBody (title content : string) (imageMediaIds : list value)
  : value :=
  VObj [("articles", VArr [VObj [
    ("article_type", VStr "newspic");
    ("title", VStr title);
    ("content", VStr content);
    ("image_info", VObj [("image_list", VArr (image_list imageMediaIds))]);
    ("need_open_comment", VNum 0);
    ("only_fans_can_comment", VNum 0)]])].

Definition publishImageMessageToDraft (accessToken : value)
    (title content : string) (imageMediaIds : list value) : M value :=
  response <- fetch (POST_json (draft_url accessToken)
                               (requestBody title content imageMediaIds)) ;;
  data <- lift (resp_json response) ;;
  lift (media_id_of_data draft_failed draft_missing data).

Definition uploadimg_url (accessToken : value) : string :=
  "https://api.weixin.qq.com/cgi-bin/media/uploadimg?access_token="
  ++ toString accessToken.

Definition image_download_failed (imagePath : string) : string :=
  "Failed to download image from URL: " ++ imagePath.
Definition uploadimg_failed : string := "上传图片失败: ".
Definition uploadimg_missing : string :=
  "上传图片失败: 响应中未包含图片 URL".

(** Lines 82-90: what [uploadImage] does with the parsed body. *)
Definition url_of_data (data : value) : Result value :=
  match prop data "errcode" with
  | Err e => Err e
  | Ok errcode =>
      if truthy errcode then
        match prop data "errmsg" with
        | Err e => Err e
        | Ok errmsg =>
            Err (uploadimg_failed ++ toString (or_else errmsg errcode))
        end
      else
        match prop data "url" with
        | Err e => Err e
        | Ok u => if negb (truthy u) then Err uploadimg_missing else Ok u
        end
  end.

(** Lines 54-69: the file object and its name, for [uploadImage]. *)
Definition resolve_image (imagePath : string) : M (Part * string) :=
  if startsWith imagePath "http://" || startsWith imagePath "https://" then
    response <- fetch (GET imagePath) ;;
    if negb (resp_ok response) ||
       match resp_body response with Some _ => false | None => true end
    then throw (image_download_failed imagePath)
    else
      urlPath <- pathname imagePath ;;
      ret (Blob (resp_text response),
           str_or (pop (Js.split "/" urlPath)) "image.jpg")
  else
    file <- fileFromPath imagePath ;;
    ret (file, Path.basename imagePath).

(** Lines 50-91: the temporary-image upload, kept in the module but called
    by no handler. *)
Definition uploadImage (accessToken : value) (imagePath : string) : M value :=
  src <- resolve_image imagePath ;;
  response <- fetch (POST_form (uploadimg_url accessToken)
                               [mkField "media" (fst src) (Some (snd src))]) ;;
  data <- lift (resp_json response) ;;
  lift (url_of_data data).

End WechatApi.
Export WechatApi.

(* ================================================================== *)
(** ** [src/index.ts]: the tool router *)
(* ================================================================== *)

Module Index.

(** [request.params.arguments], typed as the advertised input schemas type
    it and as the handler casts it: string fields and a string array, each
    of which may be absent. *)
Record ToolArgs : Type := mkArgs {
  arg_title : option string;
  arg_content : option string;
  arg_images : option (list string);
  arg_theme_id : option string
}.

Record CallToolRequest : Type := mkCall {
  name : string;
  arguments : option ToolArgs
}.

(** The text of a content block: a template literal, or [JSON.stringify]
    of a record (kept as the value). *)
Inductive Text : Type :=
| Plain (s : string)
| Stringified (v : value).

Record ContentBlock : Type := mkBlock {
  block_type : string;
  block_text : Text
}.

(** [request.params.arguments?.k] *)
Definition arg {A} (args : option ToolArgs) (k : ToolArgs -> option A)
  : option A :=
  match args with Some a => k a | None => None end.

(** [String(x || "")] on a string or [undefined]. *)
Definition String_or_empty (x : option string) : string := str_or x "".

(** [x as string[] || []]: an array is always truthy. *)
Definition images_or_empty (x : option (list string)) : list string :=
  match x with Some l => l | None => [] end.

(** [x ?? d] *)
Definition nullish {A} (x : option A) (d : A) : A :=
  match x with Some a => a | None => d end.

(** [!x] on [process.env.NAME]. *)
Definition env_falsy (x : option string) : bool :=
  match x with Some s => str_falsy s | None => true end.

Definition config_error : string :=
  "未设置 WECHAT_APP_ID 或 WECHAT_APP_SECRET 环境变量".
Definition validation_error : string :=
  "title、content 和 images 参数都是必需的，且 images 不能为空".
Definition unknown_tool : string := "Unknown tool".

Definition article_published (mediaId : value) : string :=
  "Your article was successfully published to '公众号草稿箱'. The media ID is "
  ++ toString mediaId ++ ".".
Definition image_message_published (mediaId : value) : string :=
  "图片消息已成功发布到公众号草稿箱。Media ID: " ++ toString mediaId.

(** Lines 165-169: the loop pushes each media id as its upload returns. *)
Fixpoint upload_images (accessToken : value) (images : list string)
    (imageMediaIds : list value) : M (list value) :=
  match images with
  | [] => ret imageMediaIds
  | imagePath :: rest =>
      mediaId <- uploadPermanentMaterial accessToken imagePath image None ;;
      upload_images accessToken rest (imageMediaIds ++ [mediaId])%list
  end.

(** Lines 113-132 *)
Definition publish_article (args : option ToolArgs) : M (list ContentBlock) :=
  let content := String_or_empty (arg args arg_content) in
  let themeId := String_or_empty (arg args arg_theme_id) in
  gzhContent <- getGzhContent content themeId "solarized-light" true true ;;
  let title := nullish (gzh_title gzhContent) "this is title" in
  let cover := nullish (gzh_cover gzhContent) "" in
  response <- publishToDraft title (gzh_content gzhContent) cover ;;
  mediaId <- lift (prop response "media_id") ;;
  ret [mkBlock "text" (Plain (article_published mediaId))].

(** Lines 133-144 *)
Definition list_themes : M (list ContentBlock) :=
  fun w t =>
    (Ok (map (fun theme =>
                mkBlock "text"
                  (Stringified (VObj [("id", VStr (theme_id theme));
                                      ("name", VStr (theme_name theme));
                                      ("description",
                                       VStr (theme_description theme))])))
             (themes w)), t).

(** Lines 145-186 *)
Definition publish_image_message (args : option ToolArgs)
  : M (list ContentBlock) :=
  appId <- getenv "WECHAT_APP_ID" ;;
  appSecret <- getenv "WECHAT_APP_SECRET" ;;
  if env_falsy appId || env_falsy appSecret then throw config_error
  else
    let title := String_or_empty (arg args arg_title) in
    let content := String_or_empty (arg args arg_content) in
    let images := images_or_empty (arg args arg_images) in
    if str_falsy title || str_falsy content || (length images =? 0)%nat
    then throw validation_error
    else
      accessToken <- getAccessToken (nullish appId "") (nullish appSecret "") ;;
      imageMediaIds <- upload_images accessToken images [] ;;
      mediaId <- publishImageMessageToDraft accessToken title content
                                            imageMediaIds ;;
      ret [mkBlock "text" (Plain (image_message_published mediaId))].

(** The [CallToolRequestSchema] handler, lines 112-190. *)
Definition callTool (request : CallToolRequest) : M (list ContentBlock) :=
  if name request =? "publish_article" then
    publish_article (arguments request)
  else if name request =? "list_themes" then
    list_themes
  else if name request =? "publish_image_message" then
    publish_image_message (arguments request)
  else throw unknown_tool.

(** One entry of [inputSchema.properties]. *)
Record PropertySchema : Type := mkProp {
  prop_key : string;
  prop_type : string;
  prop_description : string;
  prop_items : option string
}.

(** One advertised tool; [tool_required] is [None] where the schema has no
    [required] key. *)
Record ToolDescriptor : Type := mkTool {
  tool_name : string;
  tool_description : string;
  tool_properties : list PropertySchema;
  tool_required : option (list string)
}.

(** The [ListToolsRequestSchema] handler, lines 47-107. *)
Definition listTools : list ToolDescriptor :=
  [ mkTool "publish_article"
      "Format a Markdown article using a selected theme and publish it to '微信公众号'."
      [ mkProp "content" "string"
          "The original Markdown content to publish, preserving its frontmatter (if present)."
          None;
        mkProp "theme_id" "string"
          "ID of the theme to use (e.g., default, orangeheart, rainbow, lapis, pie, maize, purple, phycat)."
          None ]
      (Some ["content"]);
    mkTool "list_themes"
      "List the themes compatible with the 'publish_article' tool to publish an article to '微信公众号'."
      []
      None;
    mkTool "publish_image_message"
      "发布图片消息（图文消息）到微信公众号草稿箱。图片消息由多张图片和一段文字描述组成，类似小红书笔记的形式。"
      [ mkProp "title" "string" "图片消息的标题" None;
        mkProp "content" "string" "文字描述内容" None;
        mkProp "images" "array" "图片列表，支持本地路径或网络URL"
          (Some "string") ]
      (Some ["title"; "content"; "images"]) ].

End Index.
Export Index.

(* ================================================================== *)
(** ** Vocabulary of the properties *)
(* ================================================================== *)

Module Spec.

(** A string argument that is absent or the empty string. *)
Definition missing_or_empty (x : option string) : Prop :=
  x = None \/ x = Some "".

(** Arguments of [publish_image_message] that must be rejected: no title,
    no content, or no image. *)
Definition invalid_image_args (args : option ToolArgs) : Prop :=
  missing_or_empty (arg args arg_title) \/
  missing_or_empty (arg args arg_content) \/
  arg args arg_images = None \/ arg args arg_images = Some [].

(** An environment variable that is set to a non-empty string. *)
Definition env_set (w : World) (k v : string) : Prop :=
  env w k = Some v /\ v <> "".

Definition is_draft_call (ev : Event) : bool :=
  match ev with EFetch (POST_json _ _) _ => true | _ => false end.

Definition is_upload_call (ev : Event) : bool :=
  match ev with EFetch (POST_form _ _) _ => true | _ => false end.

Definition count_upload_calls (t : Trace) : nat :=
  length (filter is_upload_call t).

(** [data.k], [undefined] where the read would throw. *)
Definition field (k : string) (data : value) : value :=
  match prop data k with Ok v => v | Err _ => VUndefined end.

(** The body is a JSON object that has the key [k]. *)
Definition has_field (k : string) (data : value) : Prop :=
  match data with
  | VObj fields => In k (map fst fields)
  | _ => False
  end.

(** A parsed body on which property reads do not throw. *)
Definition readable (data : value) : Prop :=
  data <> VNull /\ data <> VUndefined.

(** The response parses as JSON and carries a truthy [errcode]. *)
Definition platform_error (resp : Response) : Prop :=
  exists data, resp_json resp = Ok data /\ readable data /\
               truthy (field "errcode" data) = true.

Definition failed {A} (r : Result A) : Prop := exists e, r = Err e.

(** The successive uploads of a run: started in trace [t], the uploads of
    [images], one after the other, returned [mediaIds] (the i-th upload the
    i-th id) and left trace [t']. *)
Inductive uploads (w : World) (accessToken : value)
  : Trace -> list string -> list value -> Trace -> Prop :=
| uploads_nil t : uploads w accessToken t [] [] t
| uploads_cons t t1 t' imagePath rest mediaId mediaIds :
    uploadPermanentMaterial accessToken imagePath image None w t
      = (Ok mediaId, t1) ->
    uploads w accessToken t1 rest mediaIds t' ->
    uploads w accessToken t (imagePath :: rest) (mediaId :: mediaIds) t'.

(** [articles[0].image_info.image_list] of a draft payload. *)
Definition payload_image_list (body : value) : option (list value) :=
  match field "articles" body with
  | VArr (article :: _) =>
      match field "image_list" (field "image_info" article) with
      | VArr l => Some l
      | _ => None
      end
  | _ => None
  end.

Fixpoint no_slash (s : string) : bool :=
  match s with
  | EmptyString => true
  | String a r => negb (Ascii.eqb a "/") && no_slash r
  end.

Fixpoint all_slashes (s : string) : bool :=
  match s with
  | EmptyString => true
  | String a r => Ascii.eqb a "/" && all_slashes r
  end.

(** [seg] is what follows the last separator of [p] (all of [p] when it has
    none). *)
Definition final_segment (seg p : string) : Prop :=
  exists pre, p = pre ++ seg /\ no_slash seg = true /\
              (pre = "" \/ exists pre', pre = pre' ++ "/").

(** [seg] is the final segment of [p] once its trailing separators are set
    aside; it is empty only for a path made of separators alone. *)
Definition final_segment_of_path (seg p : string) : Prop :=
  exists q sl, p = q ++ sl /\ all_slashes sl = true /\
               final_segment seg q /\ (seg = "" -> q = "").

(** What the token client and the draft composer make of the outcome of
    their API call: the body is parsed, then inspected. *)
Definition settle (parse : value -> Result value) (out : Result Response)
  : Result value :=
  match out with
  | Ok resp =>
      match resp_json resp with
      | Ok data => parse data
      | Err e => Err e
      end
  | Err e => Err e
  end.

(** What the uploader makes of the outcome of its API call: the HTTP
    status is looked at first. *)
Definition settle_upload (out : Result Response) : Result value :=
  match out with
  | Ok resp =>
      if negb (resp_ok resp) then
        Err (upload_failed ++ string_of_Z (resp_status resp) ++ " "
             ++ resp_text resp)
      else settle (media_id_of_data upload_failed upload_missing) (Ok resp)
  | Err e => Err e
  end.

(** What one run of the uploader, for [imagePath] with token [tok] in the
    image flow, may do: fetch that string when it is remote, read the file
    at that path when it is not, and post a one-field form to the
    permanent-material endpoint with [type=image]. *)
Definition upload_event (tok : value) (imagePath : string) (ev : Event)
  : Prop :=
  match ev with
  | EFetch (GET u) _ => u = imagePath /\ is_remote imagePath = true
  | EFile p _ => p = imagePath /\ is_remote imagePath = false
  | EFetch (POST_form u form) _ =>
      u = material_url tok image /\
      exists file fn, form = [mkField "media" file (Some fn)]
  | _ => False
  end.

(** What an image-message invocation may do once it holds the token: the
    uploads of its images, and one draft call carrying its title, its
    content and as many media ids as it has images. *)
Definition image_flow_event (tok : value) (title content : string)
    (images : list string) (ev : Event) : Prop :=
  (exists imagePath, In imagePath images /\ upload_event tok imagePath ev) \/
  match ev with
  | EFetch (POST_json u body) _ =>
      u = draft_url tok /\
      exists ids, body = requestBody title content ids /\
                  length ids = length images
  | _ => False
  end.

Definition is_collaborator_call (ev : Event) : bool :=
  match ev with
  | EFormat _ _ _ _ _ _ | EPublish _ _ _ _ => true
  | _ => false
  end.

(** The [media] field of a form, when it is the first one. *)
Definition media_filename_of (form : list Field) : option string :=
  match form with
  | mkField _ _ fn :: _ => fn
  | [] => None
  end.

End Spec.
Export Spec.

(* ================================================================== *)
(** ** Sample worlds and requests *)
(* ================================================================== *)

Module Samples.

Definition json_response (okb : bool) (st : Z) (data : value) : Response :=
  mkResponse okb st (Some "{...}") (Ok data).

(** A world in which nothing is configured and nothing answers. *)
Definition bare_world : World :=
  mkWorld (fun _ => None)
          (fun _ _ => Err "fetch failed")
          (fun _ _ => Err "ENOENT")
          (fun _ => Err "Invalid URL")
          (fun _ _ _ _ _ _ => Err "formatter failed")
          (fun _ _ _ _ => Err "publisher failed")
          [].

Definition credentials (k : string) : option string :=
  if k =? "WECHAT_APP_ID" then Some "wx1"
  else if k =? "WECHAT_APP_SECRET" then Some "s3cret"
  else None.

(** Every fetch is answered with the same response. *)
Definition constant_world (resp : Response) : World :=
  mkWorld credentials
          (fun _ _ => Ok resp)
          (fun _ _ => Ok "bytes")
          (fun _ => Ok "/y/pic.png")
          (fun _ _ _ _ _ _ => Ok (mkGzh None None "<p></p>"))
          (fun _ _ _ _ => Ok (VObj [("media_id", VStr "ART1")]))
          [].

(** The media id a cooperative platform hands out: one per file name. *)
Definition media_id_for (form : list Field) : value :=
  match form with
  | mkField _ _ (Some fn) :: _ => VStr ("MID-" ++ fn)
  | _ => VStr "MID"
  end.

(** The [n]-th upload is rejected with [errcode] 45009; [n = 0] rejects
    none.  Everything else succeeds. *)
Definition platform (reject_nth : nat) (t : Trace) (req : Request)
  : Result Response :=
  match req with
  | GET url =>
      if startsWith url "https://api.weixin.qq.com/cgi-bin/token" then
        Ok (json_response true 200
              (VObj [("access_token", VStr "TOKEN"); ("expires_in", VNum 7200)]))
      else Ok (mkResponse true 200 (Some "png-bytes") (Err "not JSON"))
  | POST_form _ form =>
      if (S (count_upload_calls t) =? reject_nth)%nat then
        Ok (json_response true 200
              (VObj [("errcode", VNum 45009); ("errmsg", VStr "reach max api daily quota limit")]))
      else Ok (json_response true 200 (VObj [("media_id", media_id_for form)]))
  | POST_json _ _ =>
      Ok (json_response true 200 (VObj [("media_id", VStr "DRAFT1")]))
  end.

Definition pathname_sample (url : string) : Result string :=
  if url =? "https://x/y/pic.png" then Ok "/y/pic.png"
  else if url =? "https://x/" then Ok "/"
  else Err "Invalid URL".

Definition platform_world (reject_nth : nat) : World :=
  mkWorld credentials (platform reject_nth)
          (fun _ path => Ok ("content of " ++ path))
          pathname_sample
          (fun _ _ _ _ _ _ => Ok (mkGzh None None "<p></p>"))
          (fun _ _ _ _ => Ok (VObj [("media_id", VStr "ART1")]))
          [].

Definition invalid_credential : Response :=
  json_response true 200
    (VObj [("errcode", VNum 40001); ("errmsg", VStr "invalid credential")]).

Definition token_with_zero_errcode : Response :=
  json_response true 200
    (VObj [("errcode", VNum 0); ("errmsg", VStr "ok");
           ("access_token", VStr "T")]).

(** The token endpoint answers with HTTP 500 and a token all the same. *)
Definition token_with_status_500 : Response :=
  json_response false 500 (VObj [("access_token", VStr "T")]).

(** An answer that carries [errcode: 0] next to every success field. *)
Definition zero_errcode : Response :=
  json_response true 200
    (VObj [("errcode", VNum 0); ("errmsg", VStr "ok");
           ("access_token", VStr "T"); ("media_id", VStr "M")]).

(** An answer that carries a non-zero [errcode] under a success status. *)
Definition quota_exceeded : Response :=
  json_response true 200
    (VObj [("errcode", VNum 45009);
           ("errmsg", VStr "reach max api daily quota limit")]).

Definition image_call (title content : string) (images : list string)
  : CallToolRequest :=
  mkCall "publish_image_message"
         (Some (mkArgs (Some title) (Some content) (Some images) None)).

(** A formatter that finds a title and a cover, and a publisher that
    answers with a media id. *)
Definition article_world : World :=
  mkWorld (fun _ => None)
          (fun _ _ => Err "fetch failed")
          (fun _ _ => Err "ENOENT")
          (fun _ => Err "Invalid URL")
          (fun _ content _ _ _ _ =>
             Ok (mkGzh (Some "Hello") (Some "cover.png")
                       ("<section>" ++ content ++ "</section>")))
          (fun _ _ _ _ => Ok (VObj [("media_id", VStr "ART1")]))
          [mkTheme "default" "Default" "The default theme";
           mkTheme "lapis" "Lapis" "A blue theme"].

(** The formatter throws. *)
Definition broken_formatter_world : World :=
  mkWorld (fun _ => None)
          (fun _ _ => Err "fetch failed")
          (fun _ _ => Err "ENOENT")
          (fun _ => Err "Invalid URL")
          (fun _ _ _ _ _ _ => Err "theme not found")
          (fun _ _ _ _ => Ok (VObj [("media_id", VStr "ART1")]))
          [].

(** The publisher answers without a media id. *)
Definition no_media_id_world : World :=
  mkWorld (fun _ => None)
          (fun _ _ => Err "fetch failed")
          (fun _ _ => Err "ENOENT")
          (fun _ => Err "Invalid URL")
          (fun _ _ _ _ _ _ => Ok (mkGzh None None "<p></p>"))
          (fun _ _ _ _ => Ok (VObj [("errcode", VNum 40001)]))
          [].

(** Only the application id is configured. *)
Definition id_only (k : string) : option string :=
  if k =? "WECHAT_APP_ID" then Some "wx1" else None.

Definition id_only_world : World :=
  mkWorld id_only (platform 0)
          (fun _ path => Ok ("content of " ++ path))
          pathname_sample
          (fun _ _ _ _ _ _ => Ok (mkGzh None None "<p></p>"))
          (fun _ _ _ _ => Ok (VObj [("media_id", VStr "ART1")]))
          [].

(** The network is down. *)
Definition offline_world : World :=
  mkWorld credentials
          (fun _ _ => Err "fetch failed")
          (fun _ path => Ok ("content of " ++ path))
          pathname_sample
          (fun _ _ _ _ _ _ => Ok (mkGzh None None "<p></p>"))
          (fun _ _ _ _ => Ok (VObj [("media_id", VStr "ART1")]))
          [].

(** Uploads succeed, the draft endpoint rejects. *)
Definition draft_rejecting (t : Trace) (req : Request) : Result Response :=
  match req with
  | POST_json _ _ =>
      Ok (json_response true 200
            (VObj [("errcode", VNum 53404); ("errmsg", VStr "draft rejected")]))
  | _ => platform 0 t req
  end.

Definition draft_rejecting_world : World :=
  mkWorld credentials draft_rejecting
          (fun _ path => Ok ("content of " ++ path))
          pathname_sample
          (fun _ _ _ _ _ _ => Ok (mkGzh None None "<p></p>"))
          (fun _ _ _ _ => Ok (VObj [("media_id", VStr "ART1")]))
          [].

(** An answer of the temporary-image endpoint. *)
Definition image_url_response : Response :=
  json_response false 502
    (VObj [("url", VStr "http://mmbiz.qpic.cn/mmbiz/abc/0")]).

End Samples.

(* ================================================================== *)
(** ** Running the helpers *)
(* ================================================================== *)

Import Samples.

Ltac run_monad :=
  unfold bind, fetch, lift, ret, throw, getenv, pathname, fileFromPath,
         getGzhContent, publishToDraft in *.

Lemma field_prop data k :
  readable data -> prop data k = Ok (field k data).
Proof.
  intros [Hn Hu]. unfold field.
  destruct data; try reflexivity; congruence.
Qed.

Lemma getAccessToken_run w t appId appSecret :
  let req := GET (token_url appId appSecret) in
  getAccessToken appId appSecret w t =
    (settle token_of_data (fetch_of w t req),
     (t ++ [EFetch req (fetch_of w t req)])%list).
Proof.
  cbv zeta. unfold getAccessToken. run_monad. unfold settle.
  destruct (fetch_of w t _) as [resp|e]; [|reflexivity].
  destruct (resp_json resp); reflexivity.
Qed.

Lemma publishImageMessageToDraft_run w t tok title content ids :
  let req := POST_json (draft_url tok) (requestBody title content ids) in
  publishImageMessageToDraft tok title content ids w t =
    (settle (media_id_of_data draft_failed draft_missing) (fetch_of w t req),
     (t ++ [EFetch req (fetch_of w t req)])%list).
Proof.
  cbv zeta. unfold publishImageMessageToDraft. run_monad. unfold settle.
  destruct (fetch_of w t _) as [resp|e]; [|reflexivity].
  destruct (resp_json resp); reflexivity.
Qed.

Lemma uploadPermanentMaterial_run w t tok filePath ty desc :
  uploadPermanentMaterial tok filePath ty desc w t =
    match resolve_source filePath ty w t with
    | (Ok src, t1) =>
        let req := POST_form (material_url tok ty)
                             (build_form (fst src) (snd src) ty desc) in
        (settle_upload (fetch_of w t1 req),
         (t1 ++ [EFetch req (fetch_of w t1 req)])%list)
    | (Err e, t1) => (Err e, t1)
    end.
Proof.
  unfold uploadPermanentMaterial, bind at 1.
  destruct (resolve_source filePath ty w t) as [[src|e] t1]; [|reflexivity].
  cbv zeta. run_monad. unfold settle_upload, settle.
  destruct (fetch_of w t1 _) as [resp|e]; [|reflexivity].
  destruct (resp_ok resp); cbn [negb]; [|reflexivity].
  destruct (resp_json resp); reflexivity.
Qed.

(** Resolving a source makes exactly one outbound call: the download of a
    remote source or the read of a local one. *)
Lemma resolve_source_run w t filePath ty :
  resolve_source filePath ty w t =
    if is_remote filePath then
      let out := fetch_of w t (GET filePath) in
      (match out with
       | Ok resp =>
           if negb (resp_ok resp) ||
              match resp_body resp with Some _ => false | None => true end
           then Err (download_failed filePath)
           else match pathname_of w filePath with
                | Ok urlPath =>
                    Ok (Blob (resp_text resp), remote_filename urlPath ty)
                | Err e => Err e
                end
       | Err e => Err e
       end, (t ++ [EFetch (GET filePath) out])%list)
    else
      let out := file_of w t filePath in
      (match out with
       | Ok b => Ok (FileOf filePath b, Path.basename filePath)
       | Err e => Err e
       end, (t ++ [EFile filePath out])%list).
Proof.
  unfold resolve_source. destruct (is_remote filePath); cbv zeta; run_monad.
  - destruct (fetch_of w t (GET filePath)) as [resp|e]; [|reflexivity].
    destruct (negb (resp_ok resp) || _); [reflexivity|].
    destruct (pathname_of w filePath); reflexivity.
  - destruct (file_of w t filePath); reflexivity.
Qed.

(* ================================================================== *)
(** ** The gates of [publish_image_message] *)
(* ================================================================== *)

Lemma str_or_empty_falsy x :
  missing_or_empty x -> str_falsy (String_or_empty x) = true.
Proof. intros [-> | ->]; reflexivity. Qed.

Lemma invalid_args_rejected args :
  invalid_image_args args ->
  str_falsy (String_or_empty (arg args arg_title))
  || str_falsy (String_or_empty (arg args arg_content))
  || (length (images_or_empty (arg args arg_images)) =? 0)%nat = true.
Proof.
  intros [H | [H | [H | H]]].
  - now rewrite (str_or_empty_falsy _ H).
  - rewrite (str_or_empty_falsy _ H). now rewrite orb_true_r.
  - rewrite H. cbn. now rewrite orb_true_r.
  - rewrite H. cbn. now rewrite orb_true_r.
Qed.

Lemma env_set_truthy w k v : env_set w k v -> env_falsy (env w k) = false.
Proof.
  intros [-> Hv]. cbn. unfold str_falsy.
  now apply String.eqb_neq.
Qed.

Lemma callTool_image_message w t args :
  callTool (mkCall "publish_image_message" args) w t =
  publish_image_message args w t.
Proof. reflexivity. Qed.

(** C1, as the code has it: the environment gate comes first.  A call of
    [publish_image_message] with invalid arguments (no or empty title, no
    or empty content, no or empty image list) always fails without any
    outbound call; it fails with the validation error when both
    [WECHAT_APP_ID] and [WECHAT_APP_SECRET] are set to non-empty strings,
    and with the configuration error when either is unset or empty. *)
Theorem invalid_arguments_fail_after_env_gate w t args :
  invalid_image_args args ->
  callTool (mkCall "publish_image_message" args) w t =
    (Err (if env_falsy (env w "WECHAT_APP_ID")
             || env_falsy (env w "WECHAT_APP_SECRET")
          then config_error else validation_error), t).
Proof.
  intros Hinv. rewrite callTool_image_message.
  unfold publish_image_message. run_monad.
  destruct (env_falsy (env w "WECHAT_APP_ID")
            || env_falsy (env w "WECHAT_APP_SECRET")); [reflexivity|].
  now rewrite (invalid_args_rejected _ Hinv).
Qed.

Lemma invalid_arguments_fail_after_env_gate_witness :
  invalid_image_args (Some (mkArgs (Some "t") (Some "c") (Some []) None)) /\
  callTool (image_call "t" "c" []) (platform_world 0) [] =
    (Err validation_error, []).
Proof.
  assert (H : invalid_image_args
                (Some (mkArgs (Some "t") (Some "c") (Some []) None))).
  { right. right. right. reflexivity. }
  split; [exact H|].
  exact (invalid_arguments_fail_after_env_gate (platform_world 0) [] _ H).
Defined.

(** C1 as stated fails: with neither variable set, a call with an empty
    image list yields the configuration error, not the validation error. *)
Lemma invalid_arguments_unset_env_config_error :
  invalid_image_args (Some (mkArgs (Some "t") (Some "c") (Some []) None)) /\
  env bare_world "WECHAT_APP_ID" = None /\
  env bare_world "WECHAT_APP_SECRET" = None /\
  callTool (image_call "t" "c" []) bare_world [] = (Err config_error, []) /\
  config_error <> validation_error.
Proof.
  repeat split; try reflexivity.
  - right. right. right. reflexivity.
  - discriminate.
Qed.

(* ================================================================== *)
(** ** [publish_article]: the unchecked [content] *)
(* ================================================================== *)

(** C8, what the code does: a [publish_article] call whose arguments lack
    [content] is not rejected.  The missing content is coerced to the empty
    string and handed to the content formatter, whose call is the first
    outbound event of the invocation; whatever the invocation then returns
    is what the same call with [content: ""] returns. *)
Theorem publish_article_missing_content_reaches_formatter w t args :
  arg args arg_content = None ->
  let themeId := String_or_empty (arg args arg_theme_id) in
  let out := format_of w t "" themeId "solarized-light" true true in
  (exists rest,
     snd (callTool (mkCall "publish_article" args) w t) =
       (t ++ EFormat "" themeId "solarized-light" true true out :: rest)%list)
  /\ callTool (mkCall "publish_article" args) w t =
     callTool (mkCall "publish_article"
                 (Some (mkArgs None (Some "") None (arg args arg_theme_id))))
              w t.
Proof.
  intros Hc themeId out. subst themeId out.
  change (callTool (mkCall "publish_article" args) w t)
    with (publish_article args w t).
  change (callTool (mkCall "publish_article"
            (Some (mkArgs None (Some "") None (arg args arg_theme_id)))) w t)
    with (publish_article
            (Some (mkArgs None (Some "") None (arg args arg_theme_id))) w t).
  unfold publish_article. rewrite Hc. cbn [arg arg_content arg_theme_id].
  split; [|reflexivity].
  run_monad. cbn [String_or_empty str_or].
  destruct (format_of w t "" _ "solarized-light" true true) as [g|e].
  - destruct (publish_of w _ _ _ _) as [r|e].
    + destruct (prop r "media_id"); cbn [snd];
        rewrite <- app_assoc; eexists; reflexivity.
    + cbn [snd]. rewrite <- app_assoc; eexists; reflexivity.
  - cbn [snd]. exists []. reflexivity.
Qed.

Lemma publish_article_missing_content_reaches_formatter_witness :
  callTool (mkCall "publish_article" (Some (mkArgs None None None None)))
           (platform_world 0) [] =
    (Ok [mkBlock "text" (Plain (article_published (VStr "ART1")))],
     [EFormat "" "" "solarized-light" true true
              (Ok (mkGzh None None "<p></p>"));
      EPublish "this is title" "<p></p>" ""
               (Ok (VObj [("media_id", VStr "ART1")]))]).
Proof.
  destruct (publish_article_missing_content_reaches_formatter
              (platform_world 0) []
              (Some (mkArgs None None None None)) eq_refl) as [_ H].
  rewrite H. reflexivity.
Defined.

(* ================================================================== *)
(** ** Inspecting a parsed body *)
(* ================================================================== *)

Lemma token_of_data_readable data :
  readable data ->
  token_of_data data =
    if truthy (field "errcode" data) then
      Err (token_failed
           ++ toString (or_else (field "errmsg" data) (field "errcode" data)))
    else if truthy (field "access_token" data)
         then Ok (field "access_token" data)
         else Err token_missing.
Proof.
  intros Hr. unfold token_of_data.
  rewrite !(field_prop _ _ Hr).
  destruct (truthy (field "errcode" data)); [reflexivity|].
  destruct (truthy (field "access_token" data)); reflexivity.
Qed.

Lemma media_id_of_data_readable bad missing data :
  readable data ->
  media_id_of_data bad missing data =
    if truthy (field "errcode" data) then
      Err (bad
           ++ toString (or_else (field "errmsg" data) (field "errcode" data)))
    else if truthy (field "media_id" data)
         then Ok (field "media_id" data)
         else Err missing.
Proof.
  intros Hr. unfold media_id_of_data.
  rewrite !(field_prop _ _ Hr).
  destruct (truthy (field "errcode" data)); [reflexivity|].
  destruct (truthy (field "media_id" data)); reflexivity.
Qed.

Lemma failed_Err {A} (e : string) : failed (@Err A e).
Proof. now exists e. Qed.

Lemma not_failed_Ok {A} (a : A) : ~ failed (Ok a).
Proof. intros [e He]. discriminate. Qed.

#[local] Hint Resolve failed_Err : core.

(* ================================================================== *)
(** ** The credential client *)
(* ================================================================== *)

(** C6, as the code has it: on a token response whose body parses to a JSON
    value other than [null], [getAccessToken] fails if and only if the
    body's [errcode] is truthy (present and non-zero) or its [access_token]
    is absent or falsy.  A truthy [errcode] gives the failure message
    carrying [errmsg], or the code when [errmsg] is absent or empty (so
    [{errcode: 40001, errmsg: "invalid credential"}] gives a message ending
    in "invalid credential"); a missing token gives the token-missing
    message; otherwise the result is the body's [access_token]. *)
Theorem getAccessToken_outcome w t appId appSecret resp data :
  fetch_of w t (GET (token_url appId appSecret)) = Ok resp ->
  resp_json resp = Ok data ->
  readable data ->
  let r := fst (getAccessToken appId appSecret w t) in
  let errcode := field "errcode" data in
  let errmsg := field "errmsg" data in
  let tok := field "access_token" data in
  (failed r <-> truthy errcode = true \/ truthy tok = false) /\
  (truthy errcode = true ->
   r = Err (token_failed ++ toString (or_else errmsg errcode))) /\
  (truthy errcode = true -> forall msg, errmsg = VStr msg -> msg <> "" ->
   r = Err (token_failed ++ msg)) /\
  (truthy errcode = true -> truthy errmsg = false ->
   r = Err (token_failed ++ toString errcode)) /\
  (truthy errcode = false -> truthy tok = false -> r = Err token_missing) /\
  (truthy errcode = false -> truthy tok = true -> r = Ok tok) /\
  (data = VObj [("errcode", VNum 40001); ("errmsg", VStr "invalid credential")]
   -> r = Err (token_failed ++ "invalid credential")).
Proof.
  intros Hf Hj Hr r errcode errmsg tok.
  assert (Hrun : r = if truthy errcode then
                       Err (token_failed ++ toString (or_else errmsg errcode))
                     else if truthy tok then Ok tok else Err token_missing).
  { subst r. rewrite getAccessToken_run. cbn [fst]. rewrite Hf.
    unfold settle. rewrite Hj. now apply token_of_data_readable. }
  repeat split.
  - intros Hfail. rewrite Hrun in Hfail.
    destruct (truthy errcode); [now left|].
    destruct (truthy tok); [|now right].
    now apply not_failed_Ok in Hfail.
  - intros [H | H]; rewrite Hrun.
    + rewrite H. auto.
    + destruct (truthy errcode); [auto|]. rewrite H. auto.
  - intros H. now rewrite Hrun, H.
  - intros H msg Hm Hne. rewrite Hrun, H. unfold or_else. rewrite Hm.
    cbn. apply String.eqb_neq in Hne. now rewrite Hne.
  - intros H Hm. rewrite Hrun, H. unfold or_else. now rewrite Hm.
  - intros H H'. now rewrite Hrun, H, H'.
  - intros H H'. now rewrite Hrun, H, H'.
  - intros Hd. rewrite Hrun. subst errcode errmsg tok. rewrite Hd. reflexivity.
Qed.

Lemma getAccessToken_outcome_witness :
  fst (getAccessToken "wx1" "s3cret" (constant_world invalid_credential) [])
  = Err (token_failed ++ "invalid credential").
Proof.
  assert (Hr : readable (VObj [("errcode", VNum 40001);
                               ("errmsg", VStr "invalid credential")])).
  { split; discriminate. }
  destruct (getAccessToken_outcome (constant_world invalid_credential) []
              "wx1" "s3cret" invalid_credential _ eq_refl eq_refl Hr)
    as (_ & _ & _ & _ & _ & _ & H).
  apply H. reflexivity.
Defined.

(** C6 as stated fails: a token response that contains the error-code field
    with value 0 is not a failure; the token is returned. *)
Lemma errcode_field_zero_token_returned :
  resp_json token_with_zero_errcode
    = Ok (VObj [("errcode", VNum 0); ("errmsg", VStr "ok");
                ("access_token", VStr "T")]) /\
  has_field "errcode" (VObj [("errcode", VNum 0); ("errmsg", VStr "ok");
                             ("access_token", VStr "T")]) /\
  fst (getAccessToken "wx1" "s3cret"
         (constant_world token_with_zero_errcode) []) = Ok (VStr "T") /\
  ~ failed (fst (getAccessToken "wx1" "s3cret"
                   (constant_world token_with_zero_errcode) [])).
Proof.
  repeat split.
  - cbn. now left.
  - cbn. intros [e He]. discriminate.
Qed.

(* ================================================================== *)
(** ** [errcode] in the three helpers *)
(* ================================================================== *)

Lemma readable_obj fields : readable (VObj fields).
Proof. split; discriminate. Qed.

(** C9: in each of the three helpers a response whose [errcode] is 0, or
    otherwise falsy or absent, does not take the error branch; the helper
    goes on to the presence check of its success field and returns that
    field when it is truthy. *)
Theorem falsy_errcode_is_not_an_error w t resp data :
  resp_json resp = Ok data ->
  readable data ->
  truthy (field "errcode" data) = false ->
  (forall appId appSecret,
     fetch_of w t (GET (token_url appId appSecret)) = Ok resp ->
     fst (getAccessToken appId appSecret w t) =
       if truthy (field "access_token" data)
       then Ok (field "access_token" data) else Err token_missing) /\
  (forall tok filePath ty desc src t1,
     resolve_source filePath ty w t = (Ok src, t1) ->
     fetch_of w t1 (POST_form (material_url tok ty)
                      (build_form (fst src) (snd src) ty desc)) = Ok resp ->
     resp_ok resp = true ->
     fst (uploadPermanentMaterial tok filePath ty desc w t) =
       if truthy (field "media_id" data)
       then Ok (field "media_id" data) else Err upload_missing) /\
  (forall tok title content ids,
     fetch_of w t (POST_json (draft_url tok)
                     (requestBody title content ids)) = Ok resp ->
     fst (publishImageMessageToDraft tok title content ids w t) =
       if truthy (field "media_id" data)
       then Ok (field "media_id" data) else Err draft_missing).
Proof.
  intros Hj Hr Hc. repeat split.
  - intros appId appSecret Hf. rewrite getAccessToken_run. cbn [fst].
    rewrite Hf. unfold settle. rewrite Hj.
    rewrite (token_of_data_readable _ Hr). now rewrite Hc.
  - intros tok filePath ty desc src t1 Hs Hf Hok.
    rewrite uploadPermanentMaterial_run, Hs. cbv zeta. cbn [fst].
    rewrite Hf. unfold settle_upload, settle. rewrite Hok, Hj. cbn [negb].
    rewrite (media_id_of_data_readable _ _ _ Hr). now rewrite Hc.
  - intros tok title content ids Hf.
    rewrite publishImageMessageToDraft_run. cbn [fst].
    rewrite Hf. unfold settle. rewrite Hj.
    rewrite (media_id_of_data_readable _ _ _ Hr). now rewrite Hc.
Qed.

Lemma falsy_errcode_is_not_an_error_witness :
  fst (getAccessToken "wx1" "s3cret" (constant_world zero_errcode) [])
    = Ok (VStr "T") /\
  fst (uploadPermanentMaterial (VStr "T") "/local/a.jpg" image None
         (constant_world zero_errcode) []) = Ok (VStr "M") /\
  fst (publishImageMessageToDraft (VStr "T") "t" "c" [VStr "M"]
         (constant_world zero_errcode) []) = Ok (VStr "M").
Proof.
  destruct (falsy_errcode_is_not_an_error (constant_world zero_errcode) []
              zero_errcode _ eq_refl (readable_obj _) eq_refl)
    as (H1 & _ & H3).
  destruct (falsy_errcode_is_not_an_error (constant_world zero_errcode)
              [] zero_errcode _ eq_refl (readable_obj _) eq_refl)
    as (_ & H2 & _).
  split; [exact (H1 "wx1" "s3cret" eq_refl)|].
  split; [|exact (H3 (VStr "T") "t" "c" [VStr "M"] eq_refl)].
  exact (H2 (VStr "T") "/local/a.jpg" image None _ _ eq_refl eq_refl eq_refl).
Defined.

(** C4, as the code has it: in each of the three helpers a response whose
    JSON body carries a truthy (non-zero) [errcode] yields a failure,
    whatever the HTTP status; a non-success HTTP status yields a failure in
    the permanent-material upload. *)
Theorem errcode_and_status_checks w t resp :
  (platform_error resp ->
   (forall appId appSecret,
      fetch_of w t (GET (token_url appId appSecret)) = Ok resp ->
      failed (fst (getAccessToken appId appSecret w t))) /\
   (forall tok filePath ty desc src t1,
      resolve_source filePath ty w t = (Ok src, t1) ->
      fetch_of w t1 (POST_form (material_url tok ty)
                       (build_form (fst src) (snd src) ty desc)) = Ok resp ->
      failed (fst (uploadPermanentMaterial tok filePath ty desc w t))) /\
   (forall tok title content ids,
      fetch_of w t (POST_json (draft_url tok)
                      (requestBody title content ids)) = Ok resp ->
      failed (fst (publishImageMessageToDraft tok title content ids w t)))) /\
  (resp_ok resp = false ->
   forall tok filePath ty desc src t1,
     resolve_source filePath ty w t = (Ok src, t1) ->
     fetch_of w t1 (POST_form (material_url tok ty)
                      (build_form (fst src) (snd src) ty desc)) = Ok resp ->
     fst (uploadPermanentMaterial tok filePath ty desc w t) =
       Err (upload_failed ++ string_of_Z (resp_status resp) ++ " "
            ++ resp_text resp)).
Proof.
  split.
  - intros (data & Hj & Hr & Hc). repeat split.
    + intros appId appSecret Hf. rewrite getAccessToken_run. cbn [fst].
      rewrite Hf. unfold settle. rewrite Hj.
      rewrite (token_of_data_readable _ Hr), Hc. auto.
    + intros tok filePath ty desc src t1 Hs Hf.
      rewrite uploadPermanentMaterial_run, Hs. cbv zeta. cbn [fst].
      rewrite Hf. unfold settle_upload, settle.
      destruct (resp_ok resp); cbn [negb]; [|auto].
      rewrite Hj, (media_id_of_data_readable _ _ _ Hr), Hc. auto.
    + intros tok title content ids Hf.
      rewrite publishImageMessageToDraft_run. cbn [fst].
      rewrite Hf. unfold settle. rewrite Hj.
      rewrite (media_id_of_data_readable _ _ _ Hr), Hc. auto.
  - intros Hok tok filePath ty desc src t1 Hs Hf.
    rewrite uploadPermanentMaterial_run, Hs. cbv zeta. cbn [fst].
    rewrite Hf. unfold settle_upload. now rewrite Hok.
Qed.

Lemma quota_exceeded_platform_error : platform_error quota_exceeded.
Proof.
  eexists. split; [reflexivity|]. split; [apply readable_obj|reflexivity].
Qed.

Lemma errcode_and_status_checks_witness :
  failed (fst (getAccessToken "wx1" "s3cret"
                 (constant_world quota_exceeded) [])) /\
  failed (fst (uploadPermanentMaterial (VStr "T") "/local/a.jpg" image None
                 (constant_world quota_exceeded) [])) /\
  failed (fst (publishImageMessageToDraft (VStr "T") "t" "c" [VStr "M"]
                 (constant_world quota_exceeded) [])) /\
  fst (uploadPermanentMaterial (VStr "T") "/local/a.jpg" image None
         (constant_world token_with_status_500) [])
    = Err (upload_failed ++ "500 {...}").
Proof.
  destruct (errcode_and_status_checks (constant_world quota_exceeded) []
              quota_exceeded) as [H _].
  destruct (H quota_exceeded_platform_error) as (H1 & H2 & H3).
  destruct (errcode_and_status_checks (constant_world token_with_status_500)
              [] token_with_status_500) as [_ H4].
  split; [exact (H1 "wx1" "s3cret" eq_refl)|].
  split; [exact (H2 (VStr "T") "/local/a.jpg" image None _ _
                    eq_refl eq_refl)|].
  split; [exact (H3 (VStr "T") "t" "c" [VStr "M"] eq_refl)|].
  exact (H4 eq_refl (VStr "T") "/local/a.jpg" image None _ _
            eq_refl eq_refl).
Defined.

(** C4 as stated fails twice over: the token fetch and the draft call do
    not look at the HTTP status (a 500 answer that carries a token or a
    media id is a success), and an [errcode] of 0 is no failure in any of
    the three helpers. *)
Lemma status_500_and_zero_errcode_accepted :
  resp_ok token_with_status_500 = false /\
  fst (getAccessToken "wx1" "s3cret"
         (constant_world token_with_status_500) []) = Ok (VStr "T") /\
  fst (publishImageMessageToDraft (VStr "T") "t" "c" [VStr "M"]
         (constant_world
            (json_response false 500 (VObj [("media_id", VStr "D")]))) [])
    = Ok (VStr "D") /\
  has_field "errcode" (VObj [("errcode", VNum 0); ("errmsg", VStr "ok");
                             ("access_token", VStr "T");
                             ("media_id", VStr "M")]) /\
  fst (getAccessToken "wx1" "s3cret" (constant_world zero_errcode) [])
    = Ok (VStr "T") /\
  fst (uploadPermanentMaterial (VStr "T") "/local/a.jpg" image None
         (constant_world zero_errcode) []) = Ok (VStr "M") /\
  fst (publishImageMessageToDraft (VStr "T") "t" "c" [VStr "M"]
         (constant_world zero_errcode) []) = Ok (VStr "M").
Proof.
  repeat split. cbn. now left.
Qed.

(* ================================================================== *)
(** ** The image-message flow *)
(* ================================================================== *)

Lemma bind_getenv {A} k (f : option string -> M A) w t :
  bind (getenv k) f w t = f (env w k) w t.
Proof. reflexivity. Qed.

(** Past its two gates the handler is the three-step flow. *)
Lemma publish_image_message_run w t appId appSecret title content images th :
  env_set w "WECHAT_APP_ID" appId ->
  env_set w "WECHAT_APP_SECRET" appSecret ->
  title <> "" -> content <> "" -> images <> [] ->
  publish_image_message
    (Some (mkArgs (Some title) (Some content) (Some images) th)) w t =
  (accessToken <- getAccessToken appId appSecret ;;
   imageMediaIds <- upload_images accessToken images [] ;;
   mediaId <- publishImageMessageToDraft accessToken title content
                                         imageMediaIds ;;
   ret [mkBlock "text" (Plain (image_message_published mediaId))]) w t.
Proof.
  intros Hid Hsec Ht Hc Hi. unfold publish_image_message.
  rewrite bind_getenv. rewrite bind_getenv.
  rewrite (env_set_truthy _ _ _ Hid), (env_set_truthy _ _ _ Hsec).
  destruct Hid as [-> _], Hsec as [-> _].
  cbn [orb arg arg_title arg_content arg_images String_or_empty str_or
       images_or_empty nullish].
  unfold str_falsy.
  apply String.eqb_neq in Ht, Hc. rewrite Ht, Hc.
  destruct images as [|i l]; [congruence|].
  cbn [length Nat.eqb orb]. rewrite Ht, Hc. reflexivity.
Qed.

Lemma upload_images_uploads w tok t images mediaIds t' :
  uploads w tok t images mediaIds t' ->
  forall acc,
    upload_images tok images acc w t = (Ok (acc ++ mediaIds)%list, t').
Proof.
  induction 1 as [t | t t1 t' img rest mid mids Hup _ IH]; intros acc.
  - cbn. unfold ret. now rewrite app_nil_r.
  - cbn [upload_images]. unfold bind at 1. rewrite Hup.
    rewrite IH. now rewrite <- app_assoc.
Qed.

Lemma upload_images_fail w tok t pre mediaIds t1 img e t2 post :
  uploads w tok t pre mediaIds t1 ->
  uploadPermanentMaterial tok img image None w t1 = (Err e, t2) ->
  forall acc,
    upload_images tok (pre ++ img :: post) acc w t = (Err e, t2).
Proof.
  induction 1 as [t | t t1 t' i rest mid mids Hup _ IH];
    intros Hfail acc.
  - cbn [app upload_images]. unfold bind at 1. now rewrite Hfail.
  - cbn [app upload_images]. unfold bind at 1. rewrite Hup.
    now apply IH.
Qed.

Lemma uploads_length w tok t images mediaIds t' :
  uploads w tok t images mediaIds t' -> length mediaIds = length images.
Proof. induction 1; cbn; congruence. Qed.

(** The i-th media id is what the upload of the i-th image returned. *)
Lemma uploads_nth w tok t images mediaIds t' :
  uploads w tok t images mediaIds t' ->
  forall i imagePath,
    nth_error images i = Some imagePath ->
    exists ti ti' mediaId,
      nth_error mediaIds i = Some mediaId /\
      uploadPermanentMaterial tok imagePath image None w ti
        = (Ok mediaId, ti').
Proof.
  induction 1 as [t | t t1 t' img rest mid mids Hup _ IH];
    intros i imagePath Hi.
  - destruct i; discriminate.
  - destruct i as [|i]; cbn in Hi.
    + injection Hi as <-. now exists t, t1, mid.
    + destruct (IH _ _ Hi) as (ti & ti' & m & Hm & Hu).
      now exists ti, ti', m.
Qed.

(** What one run of the uploader adds to the trace: no draft call and at
    most one upload call. *)
Lemma uploadPermanentMaterial_trace w t tok filePath ty desc :
  exists d,
    snd (uploadPermanentMaterial tok filePath ty desc w t) = (t ++ d)%list /\
    Forall (fun ev => is_draft_call ev = false) d /\
    (count_upload_calls d <= 1)%nat /\
    (is_ok (fst (uploadPermanentMaterial tok filePath ty desc w t)) = true ->
     count_upload_calls d = 1%nat).
Proof.
  rewrite uploadPermanentMaterial_run, resolve_source_run.
  destruct (is_remote filePath); cbv zeta.
  - destruct (fetch_of w t (GET filePath)) as [resp|e].
    + destruct (negb (resp_ok resp) || _).
      * eexists [_]. cbn. repeat split; auto; discriminate.
      * destruct (pathname_of w filePath).
        -- cbn [fst snd]. rewrite <- app_assoc. eexists [_; _].
           cbn. repeat split; auto.
        -- eexists [_]. cbn. repeat split; auto; discriminate.
    + eexists [_]. cbn. repeat split; auto; discriminate.
  - destruct (file_of w t filePath).
    + cbn [fst snd]. rewrite <- app_assoc. eexists [_; _].
      cbn. repeat split; auto.
    + eexists [_]. cbn. repeat split; auto; discriminate.
Qed.

Lemma count_upload_calls_app t1 t2 :
  count_upload_calls (t1 ++ t2)%list =
    (count_upload_calls t1 + count_upload_calls t2)%nat.
Proof.
  unfold count_upload_calls. now rewrite filter_app, length_app.
Qed.

Lemma uploads_trace w tok t images mediaIds t' :
  uploads w tok t images mediaIds t' ->
  exists d,
    t' = (t ++ d)%list /\
    Forall (fun ev => is_draft_call ev = false) d /\
    count_upload_calls d = length images.
Proof.
  induction 1 as [t | t t1 t' img rest mid mids Hup _ IH].
  - exists []. rewrite app_nil_r. repeat split; auto.
  - destruct (uploadPermanentMaterial_trace w t tok img image None)
      as (d1 & Hd1 & Hnd1 & _ & Hc1).
    rewrite Hup in Hd1, Hc1. cbn in Hd1, Hc1.
    destruct IH as (d2 & -> & Hnd2 & Hc2). subst t1.
    exists (d1 ++ d2)%list. rewrite app_assoc. repeat split.
    + apply Forall_app. now split.
    + rewrite count_upload_calls_app, Hc1, Hc2; reflexivity.
Qed.

Lemma payload_image_list_requestBody title content ids :
  payload_image_list (requestBody title content ids) = Some (image_list ids).
Proof. reflexivity. Qed.

(** C2: when the token is obtained and every upload of a non-empty image
    list succeeds, the invocation submits one draft payload, after all the
    uploads, and its [image_list] is the list of [{image_media_id}] entries
    of the media ids in input order: one entry per image, the i-th holding
    the media id that the upload of the i-th image returned. *)
Theorem image_list_preserves_upload_order
    w t appId appSecret title content images th tok t0 mediaIds t1 :
  env_set w "WECHAT_APP_ID" appId ->
  env_set w "WECHAT_APP_SECRET" appSecret ->
  title <> "" -> content <> "" -> images <> [] ->
  getAccessToken appId appSecret w t = (Ok tok, t0) ->
  uploads w tok t0 images mediaIds t1 ->
  exists body out entries d,
    snd (callTool (mkCall "publish_image_message"
                     (Some (mkArgs (Some title) (Some content)
                                   (Some images) th))) w t)
      = (t1 ++ [EFetch (POST_json (draft_url tok) body) out])%list /\
    t1 = (t ++ d)%list /\
    Forall (fun ev => is_draft_call ev = false) d /\
    payload_image_list body = Some entries /\
    entries = map (fun m => VObj [("image_media_id", m)]) mediaIds /\
    length entries = length images /\
    (forall i imagePath,
        nth_error images i = Some imagePath ->
        exists ti ti' mediaId,
          uploadPermanentMaterial tok imagePath image None w ti
            = (Ok mediaId, ti') /\
          nth_error entries i = Some (VObj [("image_media_id", mediaId)])).
Proof.
  intros Hid Hsec Ht Hc Hi Htok Hup.
  rewrite callTool_image_message.
  rewrite (publish_image_message_run _ _ _ _ _ _ _ _ Hid Hsec Ht Hc Hi).
  unfold bind at 1. rewrite Htok.
  unfold bind at 1. rewrite (upload_images_uploads _ _ _ _ _ _ Hup []).
  cbn [app]. unfold bind at 1.
  rewrite publishImageMessageToDraft_run. cbv zeta.
  exists (requestBody title content mediaIds).
  exists (fetch_of w t1 (POST_json (draft_url tok)
                           (requestBody title content mediaIds))).
  exists (image_list mediaIds).
  assert (Ht0 : t0 = (t ++ [EFetch (GET (token_url appId appSecret))
                              (fetch_of w t (GET (token_url appId appSecret)))])%list).
  { rewrite getAccessToken_run in Htok. cbv zeta in Htok. congruence. }
  destruct (uploads_trace _ _ _ _ _ _ Hup) as (d & Hd & Hnd & _).
  exists ([EFetch (GET (token_url appId appSecret))
                  (fetch_of w t (GET (token_url appId appSecret)))] ++ d)%list.
  split; [|split; [|split; [|split; [|split; [|split]]]]].
  - destruct (settle _ _); reflexivity.
  - rewrite Hd, Ht0. now rewrite <- app_assoc.
  - constructor; [reflexivity | exact Hnd].
  - apply payload_image_list_requestBody.
  - reflexivity.
  - unfold image_list. rewrite length_map.
    exact (uploads_length _ _ _ _ _ _ Hup).
  - intros i imagePath Hnth.
    destruct (uploads_nth _ _ _ _ _ _ Hup _ _ Hnth) as (ti & ti' & m & Hm & Hu).
    exists ti, ti', m. split; [exact Hu|].
    unfold image_list. rewrite nth_error_map, Hm. reflexivity.
Qed.

Lemma credentials_id w0 :
  env w0 = credentials -> env_set w0 "WECHAT_APP_ID" "wx1".
Proof. intros E. split; [now rewrite E | discriminate]. Qed.

Lemma credentials_secret w0 :
  env w0 = credentials -> env_set w0 "WECHAT_APP_SECRET" "s3cret".
Proof. intros E. split; [now rewrite E | discriminate]. Qed.

Lemma image_list_preserves_upload_order_witness :
  exists t1 body out,
    snd (callTool (image_call "t" "c" ["https://x/y/pic.png"; "/local/a.jpg"])
           (platform_world 0) [])
      = (t1 ++ [EFetch (POST_json (draft_url (VStr "TOKEN")) body) out])%list /\
    payload_image_list body
      = Some [VObj [("image_media_id", VStr "MID-pic.png")];
              VObj [("image_media_id", VStr "MID-a.jpg")]].
Proof.
  edestruct (image_list_preserves_upload_order (platform_world 0) []
               "wx1" "s3cret" "t" "c"
               ["https://x/y/pic.png"; "/local/a.jpg"] None (VStr "TOKEN"))
    as (body & out & entries & d & H1 & _ & _ & H2 & H3 & _).
  - now apply credentials_id.
  - now apply credentials_secret.
  - discriminate.
  - discriminate.
  - discriminate.
  - vm_compute; reflexivity.
  - eapply uploads_cons; [vm_compute; reflexivity|].
    eapply uploads_cons; [vm_compute; reflexivity|].
    apply uploads_nil.
  - eexists _, body, out. split; [exact H1|]. rewrite H2, H3. reflexivity.
Defined.

(** C3: when the upload of an image fails, the invocation fails with that
    upload's error and its trace ends there: no later image is uploaded
    (the trace holds at most as many upload calls as images up to the
    failing one) and no draft call is made. *)
Theorem upload_failure_aborts_the_flow
    w t appId appSecret title content pre imagePath post th
    tok t0 mediaIds t1 e t2 :
  env_set w "WECHAT_APP_ID" appId ->
  env_set w "WECHAT_APP_SECRET" appSecret ->
  title <> "" -> content <> "" ->
  getAccessToken appId appSecret w t = (Ok tok, t0) ->
  uploads w tok t0 pre mediaIds t1 ->
  uploadPermanentMaterial tok imagePath image None w t1 = (Err e, t2) ->
  exists d,
    callTool (mkCall "publish_image_message"
                (Some (mkArgs (Some title) (Some content)
                              (Some (pre ++ imagePath :: post)%list) th))) w t
      = (Err e, t2) /\
    t2 = (t ++ d)%list /\
    Forall (fun ev => is_draft_call ev = false) d /\
    (count_upload_calls d <= length pre + 1)%nat.
Proof.
  intros Hid Hsec Ht Hc Htok Hup Hfail.
  rewrite callTool_image_message.
  assert (Hi : (pre ++ imagePath :: post)%list <> []).
  { destruct pre; discriminate. }
  rewrite (publish_image_message_run _ _ _ _ _ _ _ _ Hid Hsec Ht Hc Hi).
  unfold bind at 1. rewrite Htok.
  unfold bind at 1.
  rewrite (upload_images_fail _ _ _ _ _ _ _ _ _ post Hup Hfail []).
  rewrite getAccessToken_run in Htok. cbv zeta in Htok.
  injection Htok as _ Ht0.
  destruct (uploads_trace _ _ _ _ _ _ Hup) as (d1 & Hd1 & Hnd1 & Hc1).
  destruct (uploadPermanentMaterial_trace w t1 tok imagePath image None)
    as (d2 & Hd2 & Hnd2 & Hc2 & _).
  rewrite Hfail in Hd2. cbn [snd] in Hd2.
  exists ([EFetch (GET (token_url appId appSecret))
                  (fetch_of w t (GET (token_url appId appSecret)))]
          ++ d1 ++ d2)%list.
  split; [reflexivity|]. split; [|split].
  - rewrite Hd2, Hd1, <- Ht0. now rewrite <- !app_assoc.
  - constructor; [reflexivity|]. apply Forall_app. now split.
  - rewrite !count_upload_calls_app, Hc1. cbn. lia.
Qed.

Lemma upload_failure_aborts_the_flow_witness :
  exists t2,
    callTool (image_call "t" "c" ["/local/a.jpg"; "/local/b.jpg"; "/c"])
             (platform_world 2) []
      = (Err (upload_failed ++ "reach max api daily quota limit"), t2) /\
    filter is_draft_call t2 = [] /\ count_upload_calls t2 = 2%nat.
Proof.
  edestruct (upload_failure_aborts_the_flow (platform_world 2) []
               "wx1" "s3cret" "t" "c" ["/local/a.jpg"] "/local/b.jpg" ["/c"]
               None (VStr "TOKEN"))
    as (d & H1 & H2 & _).
  - now apply credentials_id.
  - now apply credentials_secret.
  - discriminate.
  - discriminate.
  - vm_compute; reflexivity.
  - eapply uploads_cons; [vm_compute; reflexivity|]. apply uploads_nil.
  - vm_compute; reflexivity.
  - eexists. split; [exact H1|]. split; reflexivity.
Defined.

(* ================================================================== *)
(** ** The token's expiry *)
(* ================================================================== *)

Lemma token_of_data_fields fields fields' :
  (forall k, k <> "expires_in" -> lookup k fields = lookup k fields') ->
  token_of_data (VObj fields) = token_of_data (VObj fields').
Proof.
  intros H. unfold token_of_data, prop.
  rewrite (H "errcode"), (H "errmsg"), (H "access_token");
    [reflexivity | discriminate ..].
Qed.

(** C10: [getAccessToken] returns the bearer token alone.  On a successful
    token response (a JSON object with no truthy [errcode] and a truthy
    [access_token]) the result is exactly the body's [access_token] value,
    whatever [expires_in] holds or whether it is there at all; two token
    responses whose JSON objects differ only in [expires_in] give the same
    result; and the flow keeps no token between invocations: whatever
    happened before, a [publish_image_message] invocation that passes its
    gates begins by fetching a token. *)
Theorem expiry_is_discarded :
  (forall w t appId appSecret resp fields,
      fetch_of w t (GET (token_url appId appSecret)) = Ok resp ->
      resp_json resp = Ok (VObj fields) ->
      truthy (lookup "errcode" fields) = false ->
      truthy (lookup "access_token" fields) = true ->
      getAccessToken appId appSecret w t =
        (Ok (lookup "access_token" fields),
         (t ++ [EFetch (GET (token_url appId appSecret)) (Ok resp)])%list)) /\
  (forall w t w' t' appId appSecret resp resp' fields fields',
      fetch_of w t (GET (token_url appId appSecret)) = Ok resp ->
      fetch_of w' t' (GET (token_url appId appSecret)) = Ok resp' ->
      resp_json resp = Ok (VObj fields) ->
      resp_json resp' = Ok (VObj fields') ->
      (forall k, k <> "expires_in" -> lookup k fields = lookup k fields') ->
      fst (getAccessToken appId appSecret w t)
        = fst (getAccessToken appId appSecret w' t')) /\
  (forall w t appId appSecret title content images th,
      env_set w "WECHAT_APP_ID" appId ->
      env_set w "WECHAT_APP_SECRET" appSecret ->
      title <> "" -> content <> "" -> images <> [] ->
      exists rest,
        snd (callTool (mkCall "publish_image_message"
                         (Some (mkArgs (Some title) (Some content)
                                       (Some images) th))) w t)
          = (t ++ EFetch (GET (token_url appId appSecret))
                    (fetch_of w t (GET (token_url appId appSecret)))
               :: rest)%list).
Proof.
  split; [|split].
  - intros w t appId appSecret resp fields Hf Hj Hc Htok.
    rewrite getAccessToken_run. cbv zeta. rewrite Hf.
    unfold settle. rewrite Hj.
    rewrite (token_of_data_readable _ (readable_obj fields)).
    unfold field, prop. now rewrite Hc, Htok.
  - intros w t w' t' appId appSecret resp resp' fields fields'
           Hf Hf' Hj Hj' Hsame.
    rewrite !getAccessToken_run. cbn [fst]. rewrite Hf, Hf'.
    unfold settle. rewrite Hj, Hj'. now apply token_of_data_fields.
  - intros w t appId appSecret title content images th Hid Hsec Ht Hc Hi.
    rewrite callTool_image_message.
    rewrite (publish_image_message_run _ _ _ _ _ _ _ _ Hid Hsec Ht Hc Hi).
    unfold bind at 1. rewrite getAccessToken_run. cbv zeta.
    destruct (settle token_of_data _) as [tok|e].
    + match goal with
      | |- context [bind ?m ?k w ?t0] =>
          assert (Hext : exists d, snd (bind m k w t0) = (t0 ++ d)%list)
      end.
      { unfold bind at 1.
        assert (Hl : forall imgs acc t0, exists d,
                   snd (upload_images tok imgs acc w t0) = (t0 ++ d)%list).
        { induction imgs as [|i l IH]; intros acc t0.
          - exists []. cbn. now rewrite app_nil_r.
          - cbn [upload_images]. unfold bind at 1.
            destruct (uploadPermanentMaterial_trace w t0 tok i image None)
              as (d1 & Hd1 & _).
            destruct (uploadPermanentMaterial tok i image None w t0)
              as [[m|e] t1]; cbn [snd] in Hd1; subst t1.
            + destruct (IH (acc ++ [m])%list (t0 ++ d1)%list) as (d2 & Hd2).
              exists (d1 ++ d2)%list. now rewrite Hd2, app_assoc.
            + now exists d1. }
        match goal with
        | |- context [upload_images tok images [] w ?t0] =>
            destruct (Hl images [] t0) as (d & Hd);
            destruct (upload_images tok images [] w t0) as [[ids|e] t1]
        end; cbn [snd] in Hd; subst t1.
        - unfold bind at 1. rewrite publishImageMessageToDraft_run. cbv zeta.
          eexists (d ++ [_])%list.
          destruct (settle _ _); cbn [snd ret]; now rewrite app_assoc.
        - now exists d. }
      destruct Hext as (d & ->). rewrite <- app_assoc. now exists d.
    + cbn [snd]. now exists [].
Qed.

Lemma expiry_is_discarded_witness :
  fst (getAccessToken "wx1" "s3cret"
         (constant_world
            (json_response true 200
               (VObj [("access_token", VStr "T"); ("expires_in", VNum 0)])))
         [])
  = Ok (VStr "T") /\
  fst (getAccessToken "wx1" "s3cret"
         (constant_world
            (json_response true 200
               (VObj [("access_token", VStr "T"); ("expires_in", VNum 7200)])))
         [])
  = fst (getAccessToken "wx1" "s3cret"
           (constant_world
              (json_response true 200
                 (VObj [("access_token", VStr "T"); ("expires_in", VNum 1)])))
           []) /\
  exists rest,
    snd (callTool (image_call "t" "c" ["/local/a.jpg"]) (platform_world 0) [])
    = EFetch (GET (token_url "wx1" "s3cret"))
        (fetch_of (platform_world 0) [] (GET (token_url "wx1" "s3cret")))
        :: rest.
Proof.
  destruct expiry_is_discarded as (H0 & H1 & H2). split; [|split].
  - rewrite (H0 (constant_world
                   (json_response true 200
                      (VObj [("access_token", VStr "T");
                             ("expires_in", VNum 0)])))
                [] "wx1" "s3cret" _ _ eq_refl eq_refl eq_refl eq_refl).
    reflexivity.
  - eapply H1; try reflexivity.
    intros k Hk. cbn [lookup].
    destruct ("access_token" =? k); [reflexivity|].
    destruct (String.eqb_spec "expires_in" k) as [E|_]; [congruence|].
    reflexivity.
  - destruct (H2 (platform_world 0) [] "wx1" "s3cret" "t" "c"
                ["/local/a.jpg"] None) as (rest & Hr).
    + now apply credentials_id.
    + now apply credentials_secret.
    + discriminate.
    + discriminate.
    + discriminate.
    + exists rest. exact Hr.
Defined.

(* ================================================================== *)
(** ** Classifying the media source *)
(* ================================================================== *)

Section StringFacts.

Lemma prefix_iff_append p : forall s,
  String.prefix p s = true <-> exists r, s = p ++ r.
Proof.
  induction p as [|a p IH]; intros s.
  - split; [intros _; now exists s|intros _; now destruct s].
  - destruct s as [|b s]; cbn [String.prefix].
    + split; [discriminate|intros [r Hr]; discriminate].
    + destruct (ascii_dec a b) as [->|Hne].
      * rewrite IH. split; intros [r Hr]; exists r.
        -- cbn. now rewrite Hr.
        -- cbn in Hr. now injection Hr.
      * split; [discriminate|]. intros [r Hr]. cbn in Hr.
        injection Hr as Hb _. congruence.
Qed.

Lemma append_empty_r s : s ++ "" = s.
Proof. induction s as [|a s IH]; cbn; [reflexivity | now rewrite IH]. Qed.

Lemma append_assoc s1 s2 s3 : (s1 ++ s2) ++ s3 = s1 ++ (s2 ++ s3).
Proof. induction s1 as [|a s IH]; cbn; [reflexivity | now rewrite IH]. Qed.

Lemma split_nonempty s : Js.split "/" s <> [].
Proof.
  destruct s as [|a s]; cbn; [discriminate|].
  destruct (Ascii.eqb a "/"); [discriminate|].
  destruct (Js.split "/" s); discriminate.
Qed.

Lemma split_no_slash s : no_slash s = true -> Js.split "/" s = [s].
Proof.
  induction s as [|a s IH]; cbn; [reflexivity|].
  destruct (Ascii.eqb a "/"); cbn; [discriminate|].
  intros H. now rewrite (IH H).
Qed.

Lemma split_singleton s : forall h,
  Js.split "/" s = [h] -> s = h /\ no_slash h = true.
Proof.
  induction s as [|a s IH]; cbn; intros h H.
  - injection H as <-. now split.
  - destruct (Ascii.eqb a "/") eqn:Ea.
    + injection H as _ H. now apply split_nonempty in H.
    + destruct (Js.split "/" s) as [|h' t'] eqn:Es;
        [now apply split_nonempty in Es|].
      injection H as <- ->. destruct (IH h' eq_refl) as [-> Hn].
      split; [reflexivity|]. cbn. now rewrite Ea.
Qed.

Lemma pop_cons_cons x y l : pop (x :: y :: l) = pop (y :: l).
Proof. reflexivity. Qed.

(** [split("/").pop()] is the final segment. *)
Lemma pop_split_final_segment p :
  exists seg, pop (Js.split "/" p) = Some seg /\ final_segment seg p.
Proof.
  induction p as [|a p (seg & Hpop & pre & Hp & Hns & Hpre)].
  - exists "". split; [reflexivity|]. exists "". now repeat split; auto.
  - cbn [Js.split]. destruct (Ascii.eqb_spec a "/") as [->|Hne].
    + destruct (Js.split "/" p) as [|h t] eqn:Es;
        [now apply split_nonempty in Es|].
      rewrite pop_cons_cons. exists seg. split; [exact Hpop|].
      exists (String "/" pre). repeat split; auto.
      * cbn. now rewrite Hp.
      * right. destruct Hpre as [->|[pre' ->]];
          [now exists "" | now exists (String "/" pre')].
    + destruct (Js.split "/" p) as [|h [|h' t]] eqn:Es.
      * now apply split_nonempty in Es.
      * destruct (split_singleton _ _ Es) as [-> Hh].
        exists (String a h). split; [reflexivity|].
        exists "". repeat split; auto.
        cbn. apply Ascii.eqb_neq in Hne. now rewrite Hne.
      * rewrite pop_cons_cons. rewrite pop_cons_cons in Hpop.
        exists seg. split; [exact Hpop|].
        exists (String a pre). repeat split; auto.
        -- cbn. now rewrite Hp.
        -- right. destruct Hpre as [->|[pre' ->]].
           ++ cbn in Hp. subst p. rewrite (split_no_slash _ Hns) in Es.
              discriminate.
           ++ now exists (String a pre').
Qed.

Lemma no_slash_append s1 s2 :
  no_slash (s1 ++ s2) = no_slash s1 && no_slash s2.
Proof.
  induction s1 as [|a s IH]; cbn; [reflexivity|].
  now rewrite IH, andb_assoc.
Qed.

Lemma ends_with_slash_has_slash pre :
  pre = "" \/ (exists q, pre = q ++ "/") -> no_slash pre = true -> pre = "".
Proof.
  intros [->|[q ->]] H; [reflexivity|].
  rewrite no_slash_append in H. cbn in H.
  rewrite andb_false_r in H. discriminate.
Qed.

Lemma ends_with_slash_tail b pre :
  String b pre = "" \/ (exists q, String b pre = q ++ "/") ->
  pre = "" \/ (exists q, pre = q ++ "/").
Proof.
  intros [E|[q E]]; [discriminate|].
  destruct q as [|c q]; cbn in E; injection E as _ E;
    [now left | right; now exists q].
Qed.

(** A path has one final segment only. *)
Lemma final_segment_unique p seg seg' :
  final_segment seg p -> final_segment seg' p -> seg = seg'.
Proof.
  intros (pre & Hp & Hns & Hpre) (pre' & Hp' & Hns' & Hpre').
  revert pre pre' Hp Hp' Hpre Hpre'.
  induction p as [|a p IH]; intros pre pre' Hp Hp' Hpre Hpre'.
  - destruct pre, pre'; cbn in *; try discriminate. congruence.
  - destruct pre as [|b pre], pre' as [|b' pre']; cbn in Hp, Hp'.
    + congruence.
    + exfalso. rewrite <- Hp, Hp' in Hns.
      change (String b' (pre' ++ seg')) with (String b' pre' ++ seg') in Hns.
      rewrite no_slash_append in Hns. apply andb_prop in Hns as [Hns _].
      now apply (ends_with_slash_has_slash _ Hpre') in Hns.
    + exfalso. rewrite <- Hp', Hp in Hns'.
      change (String b (pre ++ seg)) with (String b pre ++ seg) in Hns'.
      rewrite no_slash_append in Hns'. apply andb_prop in Hns' as [Hns' _].
      now apply (ends_with_slash_has_slash _ Hpre) in Hns'.
    + injection Hp as _ Hp. injection Hp' as _ Hp'.
      apply (IH pre pre' Hp Hp').
      * exact (ends_with_slash_tail _ _ Hpre).
      * exact (ends_with_slash_tail _ _ Hpre').
Qed.

Lemma string_of_list_ascii_app l1 l2 :
  string_of_list_ascii (l1 ++ l2)
  = string_of_list_ascii l1 ++ string_of_list_ascii l2.
Proof. induction l1 as [|a l IH]; cbn; [reflexivity | now rewrite IH]. Qed.

Lemma no_slash_of_list l :
  Forall (fun a => a <> "/"%char) l -> no_slash (string_of_list_ascii l) = true.
Proof.
  induction 1 as [|a l Ha _ IH]; cbn; [reflexivity|].
  apply Ascii.eqb_neq in Ha. now rewrite Ha.
Qed.

Lemma all_slashes_of_list l :
  Forall (fun a => a = "/"%char) l ->
  all_slashes (string_of_list_ascii l) = true.
Proof.
  induction 1 as [|a l Ha _ IH]; cbn; [reflexivity|].
  subst a. exact IH.
Qed.

Lemma drop_slashes_spec l :
  exists sl,
    l = (sl ++ Path.drop_slashes l)%list /\
    Forall (fun a => a = "/"%char) sl /\
    (forall a r, Path.drop_slashes l = a :: r -> a <> "/"%char).
Proof.
  induction l as [|a l (sl & Hl & Hsl & Hhd)]; cbn.
  - exists []. repeat split; auto. discriminate.
  - unfold Path.slash. destruct (Ascii.eqb_spec a "/") as [->|Hne].
    + exists ("/"%char :: sl). cbn. rewrite <- Hl. repeat split; auto.
    + exists []. repeat split; auto. intros b r E. now injection E as <- _.
Qed.

Lemma take_segment_spec l :
  exists rest,
    l = (Path.take_segment l ++ rest)%list /\
    Forall (fun a => a <> "/"%char) (Path.take_segment l) /\
    (rest = [] \/ exists r, rest = "/"%char :: r).
Proof.
  induction l as [|a l (rest & Hl & Hseg & Hrest)]; cbn.
  - exists []. repeat split; auto.
  - unfold Path.slash. destruct (Ascii.eqb_spec a "/") as [->|Hne].
    + exists ("/"%char :: l). repeat split; auto. right. now exists l.
    + exists rest. cbn. rewrite <- Hl. repeat split; auto.
Qed.

(** [basename] is the final segment of the path, trailing separators set
    aside. *)
Lemma basename_final_segment p :
  final_segment_of_path (Path.basename p) p.
Proof.
  unfold Path.basename.
  set (rl := rev (list_ascii_of_string p)).
  destruct (drop_slashes_spec rl) as (sl & Hrl & Hsl & Hhd).
  destruct (take_segment_spec (Path.drop_slashes rl))
    as (rest & Hdl & Hseg & Hrest).
  set (seg := Path.take_segment (Path.drop_slashes rl)) in *.
  assert (Hp : p = (string_of_list_ascii (rev rest)
                    ++ string_of_list_ascii (rev seg))
                   ++ string_of_list_ascii (rev sl)).
  { rewrite <- !string_of_list_ascii_app, <- !rev_app_distr.
    rewrite <- Hdl, <- Hrl. unfold rl.
    now rewrite rev_involutive, string_of_list_ascii_of_string. }
  exists (string_of_list_ascii (rev rest) ++ string_of_list_ascii (rev seg)),
         (string_of_list_ascii (rev sl)).
  split; [exact Hp|]. split; [|split].
  - apply all_slashes_of_list. now apply Forall_rev.
  - exists (string_of_list_ascii (rev rest)). split; [reflexivity|].
    split; [apply no_slash_of_list; now apply Forall_rev|].
    destruct Hrest as [->|[r ->]]; [now left|]. right.
    exists (string_of_list_ascii (rev r)). cbn [rev].
    now rewrite string_of_list_ascii_app.
  - intros Hempty.
    assert (Hs : seg = []).
    { destruct (rev seg) as [|a l] eqn:E; [|discriminate].
      apply (f_equal (@rev ascii)) in E. now rewrite rev_involutive in E. }
    assert (Hd : Path.drop_slashes rl = []).
    { destruct (Path.drop_slashes rl) as [|a r] eqn:E; [reflexivity|].
      exfalso. apply (Hhd a r eq_refl).
      subst seg. cbn in Hs. unfold Path.slash in Hs.
      destruct (Ascii.eqb_spec a "/"); [assumption|discriminate]. }
    rewrite Hd, Hs in Hdl. cbn in Hdl. subst rest. rewrite Hs. reflexivity.
Qed.

End StringFacts.

Lemma is_remote_iff filePath :
  is_remote filePath = true <->
  exists rest, filePath = "http://" ++ rest \/ filePath = "https://" ++ rest.
Proof.
  unfold is_remote, startsWith. rewrite orb_true_iff, !prefix_iff_append.
  split.
  - intros [[r Hr]|[r Hr]]; exists r; [now left | now right].
  - intros [r [Hr|Hr]]; [left | right]; now exists r.
Qed.

(** C5: the uploader treats its source as remote exactly when the string
    begins with [http://] or [https://].  Its first outbound call is then
    the network fetch of that string; for every other string it is the
    read of the file at that path.  Nothing else follows but the upload
    call itself. *)
Theorem source_classification w t tok filePath ty desc :
  (is_remote filePath = true <->
   exists rest, filePath = "http://" ++ rest \/ filePath = "https://" ++ rest)
  /\
  exists rest,
    snd (uploadPermanentMaterial tok filePath ty desc w t) =
      (t ++ (if is_remote filePath
             then EFetch (GET filePath) (fetch_of w t (GET filePath))
             else EFile filePath (file_of w t filePath)) :: rest)%list /\
    Forall (fun ev => is_upload_call ev = true) rest.
Proof.
  split; [apply is_remote_iff|].
  rewrite uploadPermanentMaterial_run, resolve_source_run.
  destruct (is_remote filePath); cbv zeta.
  - destruct (fetch_of w t (GET filePath)) as [resp|e].
    + destruct (negb (resp_ok resp) || _); [now exists []|].
      destruct (pathname_of w filePath); [|now exists []].
      cbn [fst snd]. rewrite <- app_assoc. eexists [_]. split; [reflexivity|].
      now constructor.
    + now exists [].
  - destruct (file_of w t filePath); [|now exists []].
    cbn [fst snd]. rewrite <- app_assoc. eexists [_]. split; [reflexivity|].
    now constructor.
Qed.

(* ================================================================== *)
(** ** The name of the uploaded file *)
(* ================================================================== *)

Lemma remote_filename_final_segment urlPath ty :
  exists seg,
    final_segment seg urlPath /\
    remote_filename urlPath ty = if seg =? "" then defaultFilename ty else seg.
Proof.
  destruct (pop_split_final_segment urlPath) as (seg & Hpop & Hseg).
  exists seg. split; [exact Hseg|].
  unfold remote_filename. now rewrite Hpop.
Qed.

Lemma all_slashes_ends_with_slash sl :
  all_slashes sl = true -> sl = "" \/ exists sl', sl = sl' ++ "/".
Proof.
  induction sl as [|a sl IH]; cbn; [now left|].
  destruct (Ascii.eqb_spec a "/") as [->|]; [|discriminate].
  intros H. right. destruct (IH H) as [->|[sl' ->]];
    [now exists "" | now exists (String "/" sl')].
Qed.

Lemma basename_without_trailing_slash p :
  ~ (exists q, p = q ++ "/") -> final_segment (Path.basename p) p.
Proof.
  intros Hno.
  destruct (basename_final_segment p) as (q & sl & Hp & Hsl & Hseg & _).
  destruct (all_slashes_ends_with_slash _ Hsl) as [->|[sl' ->]].
  - rewrite append_empty_r in Hp. now subst q.
  - exfalso. apply Hno. exists (q ++ sl'). now rewrite append_assoc.
Qed.

(** C7: for a remote source whose download succeeds, the [media] field of
    the upload carries the downloaded bytes under the final segment of the
    URL's path, and under the default of the material type ([image.jpg],
    [video.mp4]) when that segment is empty; for a local source it carries
    the file under the final segment of the given path (its base name). *)
Theorem media_filename w t tok filePath ty desc :
  (forall resp body urlPath,
      is_remote filePath = true ->
      fetch_of w t (GET filePath) = Ok resp ->
      resp_ok resp = true -> resp_body resp = Some body ->
      pathname_of w filePath = Ok urlPath ->
      exists seg more out,
        final_segment seg urlPath /\
        snd (uploadPermanentMaterial tok filePath ty desc w t) =
          (t ++ [EFetch (GET filePath) (Ok resp);
                 EFetch (POST_form (material_url tok ty)
                           (mkField "media" (Blob body)
                              (Some (if seg =? "" then defaultFilename ty
                                     else seg)) :: more)) out])%list) /\
  (forall bytes,
      is_remote filePath = false ->
      file_of w t filePath = Ok bytes ->
      exists seg more out,
        seg = Path.basename filePath /\
        final_segment_of_path seg filePath /\
        (~ (exists q, filePath = q ++ "/") -> final_segment seg filePath) /\
        snd (uploadPermanentMaterial tok filePath ty desc w t) =
          (t ++ [EFile filePath (Ok bytes);
                 EFetch (POST_form (material_url tok ty)
                           (mkField "media" (FileOf filePath bytes)
                              (Some seg) :: more)) out])%list) /\
  defaultFilename image = "image.jpg" /\ defaultFilename video = "video.mp4".
Proof.
  split; [|split; [|split; reflexivity]].
  - intros resp body urlPath Hrem Hf Hok Hbody Hpath.
    destruct (remote_filename_final_segment urlPath ty) as (seg & Hseg & Hname).
    exists seg. rewrite uploadPermanentMaterial_run, resolve_source_run, Hrem.
    cbv zeta. rewrite Hf, Hok, Hbody, Hpath. cbn [negb orb fst snd].
    unfold resp_text. rewrite Hbody, Hname. unfold build_form.
    rewrite <- app_assoc. eexists _, _. split; [exact Hseg|]. reflexivity.
  - intros bytes Hloc Hf.
    exists (Path.basename filePath).
    rewrite uploadPermanentMaterial_run, resolve_source_run, Hloc.
    cbv zeta. rewrite Hf. cbn [fst snd]. unfold build_form.
    rewrite <- app_assoc. eexists _, _.
    split; [reflexivity|]. split; [apply basename_final_segment|].
    split; [apply basename_without_trailing_slash|]. reflexivity.
Qed.

Lemma media_filename_witness :
  (exists more out,
     snd (uploadPermanentMaterial (VStr "TOKEN") "https://x/y/pic.png" image
            None (platform_world 0) []) =
       [EFetch (GET "https://x/y/pic.png")
               (Ok (mkResponse true 200 (Some "png-bytes") (Err "not JSON")));
        EFetch (POST_form (material_url (VStr "TOKEN") image)
                  (mkField "media" (Blob "png-bytes") (Some "pic.png")
                     :: more)) out]) /\
  (exists more out,
     snd (uploadPermanentMaterial (VStr "TOKEN") "https://x/" video
            None (platform_world 0) []) =
       [EFetch (GET "https://x/")
               (Ok (mkResponse true 200 (Some "png-bytes") (Err "not JSON")));
        EFetch (POST_form (material_url (VStr "TOKEN") video)
                  (mkField "media" (Blob "png-bytes") (Some "video.mp4")
                     :: more)) out]) /\
  (exists more out,
     snd (uploadPermanentMaterial (VStr "TOKEN") "/local/a.jpg" image
            None (platform_world 0) []) =
       [EFile "/local/a.jpg" (Ok "content of /local/a.jpg");
        EFetch (POST_form (material_url (VStr "TOKEN") image)
                  (mkField "media"
                     (FileOf "/local/a.jpg" "content of /local/a.jpg")
                     (Some "a.jpg") :: more)) out]).
Proof.
  split; [|split].
  - destruct (media_filename (platform_world 0) [] (VStr "TOKEN")
                "https://x/y/pic.png" image None) as (H & _).
    destruct (H _ "png-bytes" "/y/pic.png" eq_refl eq_refl eq_refl eq_refl
                eq_refl) as (seg & more & out & Hseg & Ht).
    assert (Hpic : final_segment "pic.png" "/y/pic.png").
    { exists "/y/". repeat split. right. now exists "/y". }
    rewrite (final_segment_unique _ _ _ Hseg Hpic) in Ht.
    exists more, out. exact Ht.
  - destruct (media_filename (platform_world 0) [] (VStr "TOKEN")
                "https://x/" video None) as (H & _).
    destruct (H _ "png-bytes" "/" eq_refl eq_refl eq_refl eq_refl
                eq_refl) as (seg & more & out & Hseg & Ht).
    assert (Hroot : final_segment "" "/").
    { exists "/". repeat split. right. now exists "". }
    rewrite (final_segment_unique _ _ _ Hseg Hroot) in Ht.
    exists more, out. exact Ht.
  - destruct (media_filename (platform_world 0) [] (VStr "TOKEN")
                "/local/a.jpg" image None) as (_ & H & _).
    destruct (H "content of /local/a.jpg" eq_refl eq_refl)
      as (seg & more & out & Hseg & _ & _ & Ht).
    subst seg. exists more, out. exact Ht.
Defined.

(* ================================================================== *)
(** ** Further properties of the image-message flow *)
(* ================================================================== *)

(** X1: whatever its arguments, a [publish_image_message] call fails with
    the configuration error, and makes no outbound call, as soon as
    [WECHAT_APP_ID] or [WECHAT_APP_SECRET] is unset or empty. *)
Theorem missing_credentials_fail_before_any_call w t args :
  env_falsy (env w "WECHAT_APP_ID")
  || env_falsy (env w "WECHAT_APP_SECRET") = true ->
  callTool (mkCall "publish_image_message" args) w t = (Err config_error, t).
Proof.
  intros H. rewrite callTool_image_message. unfold publish_image_message.
  rewrite !bind_getenv. now rewrite H.
Qed.

Lemma missing_credentials_fail_before_any_call_witness :
  callTool (image_call "t" "c" ["/local/a.jpg"]) id_only_world []
  = (Err config_error, []).
Proof.
  exact (missing_credentials_fail_before_any_call id_only_world [] _ eq_refl).
Defined.

(** X2: when the token cannot be obtained, the invocation fails with the
    credential client's error right after the token request: no image is
    read, downloaded or uploaded and no draft is submitted. *)
Theorem token_failure_aborts_the_flow
    w t appId appSecret title content images th e t0 :
  env_set w "WECHAT_APP_ID" appId ->
  env_set w "WECHAT_APP_SECRET" appSecret ->
  title <> "" -> content <> "" -> images <> [] ->
  getAccessToken appId appSecret w t = (Err e, t0) ->
  callTool (mkCall "publish_image_message"
              (Some (mkArgs (Some title) (Some content) (Some images) th)))
           w t = (Err e, t0) /\
  t0 = (t ++ [EFetch (GET (token_url appId appSecret))
                (fetch_of w t (GET (token_url appId appSecret)))])%list.
Proof.
  intros Hid Hsec Ht Hc Hi Htok. rewrite callTool_image_message.
  rewrite (publish_image_message_run _ _ _ _ _ _ _ _ Hid Hsec Ht Hc Hi).
  unfold bind at 1. rewrite Htok. split; [reflexivity|].
  rewrite getAccessToken_run in Htok. cbv zeta in Htok. congruence.
Qed.

Lemma token_failure_aborts_the_flow_witness :
  callTool (image_call "t" "c" ["/local/a.jpg"]) offline_world []
  = (Err "fetch failed",
     [EFetch (GET (token_url "wx1" "s3cret")) (Err "fetch failed")]).
Proof.
  destruct (token_failure_aborts_the_flow offline_world [] "wx1" "s3cret"
              "t" "c" ["/local/a.jpg"] None "fetch failed"
              [EFetch (GET (token_url "wx1" "s3cret")) (Err "fetch failed")])
    as [H _].
  - now apply credentials_id.
  - now apply credentials_secret.
  - discriminate.
  - discriminate.
  - discriminate.
  - reflexivity.
  - exact H.
Defined.

(** X3: once the token is obtained and every upload has succeeded, the
    invocation submits the draft and its result is the draft step's: the
    single text block naming the media id the draft call returned, or the
    draft step's error.  In either case the trace keeps the uploads: a
    rejected draft is followed by no compensating call. *)
Theorem image_message_outcome
    w t appId appSecret title content images th tok t0 mediaIds t1 :
  env_set w "WECHAT_APP_ID" appId ->
  env_set w "WECHAT_APP_SECRET" appSecret ->
  title <> "" -> content <> "" -> images <> [] ->
  getAccessToken appId appSecret w t = (Ok tok, t0) ->
  uploads w tok t0 images mediaIds t1 ->
  let req := POST_json (draft_url tok) (requestBody title content mediaIds) in
  let out := fetch_of w t1 req in
  callTool (mkCall "publish_image_message"
              (Some (mkArgs (Some title) (Some content) (Some images) th)))
           w t =
    (match settle (media_id_of_data draft_failed draft_missing) out with
     | Ok mediaId =>
         Ok [mkBlock "text" (Plain (image_message_published mediaId))]
     | Err e => Err e
     end, (t1 ++ [EFetch req out])%list).
Proof.
  intros Hid Hsec Ht Hc Hi Htok Hup req out. subst req out.
  rewrite callTool_image_message.
  rewrite (publish_image_message_run _ _ _ _ _ _ _ _ Hid Hsec Ht Hc Hi).
  unfold bind at 1. rewrite Htok.
  unfold bind at 1. rewrite (upload_images_uploads _ _ _ _ _ _ Hup []).
  cbn [app]. unfold bind at 1.
  rewrite publishImageMessageToDraft_run. cbv zeta.
  destruct (settle _ _); reflexivity.
Qed.

Lemma image_message_outcome_witness :
  fst (callTool (image_call "t" "c" ["https://x/y/pic.png"])
         (platform_world 0) [])
    = Ok [mkBlock "text" (Plain (image_message_published (VStr "DRAFT1")))] /\
  (exists t1 out,
     callTool (image_call "t" "c" ["/local/a.jpg"]) draft_rejecting_world []
     = (Err (draft_failed ++ "draft rejected"),
        (t1 ++ [EFetch (POST_json (draft_url (VStr "TOKEN"))
                          (requestBody "t" "c" [VStr "MID-a.jpg"])) out])%list)
     /\ count_upload_calls t1 = 1%nat).
Proof.
  unfold image_call. split.
  - erewrite (image_message_outcome (platform_world 0) [] "wx1" "s3cret"
                "t" "c" ["https://x/y/pic.png"] None (VStr "TOKEN")).
    + reflexivity.
    + now apply credentials_id.
    + now apply credentials_secret.
    + discriminate.
    + discriminate.
    + discriminate.
    + vm_compute; reflexivity.
    + eapply uploads_cons; [vm_compute; reflexivity|]. apply uploads_nil.
  - eexists _, _.
    erewrite (image_message_outcome draft_rejecting_world [] "wx1" "s3cret"
                "t" "c" ["/local/a.jpg"] None (VStr "TOKEN")); cycle 1.
    + now apply credentials_id.
    + now apply credentials_secret.
    + discriminate.
    + discriminate.
    + discriminate.
    + vm_compute; reflexivity.
    + eapply uploads_cons; [vm_compute; reflexivity|]. apply uploads_nil.
    + split; [reflexivity|]. reflexivity.
Defined.

Lemma uploadPermanentMaterial_events w t tok imagePath :
  exists d,
    snd (uploadPermanentMaterial tok imagePath image None w t)
      = (t ++ d)%list /\
    Forall (upload_event tok imagePath) d /\
    (length d <= 2)%nat.
Proof.
  rewrite uploadPermanentMaterial_run, resolve_source_run.
  assert (Hform : forall file fn out,
             upload_event tok imagePath
               (EFetch (POST_form (material_url tok image)
                          (build_form file fn image None)) out)).
  { intros file fn out. split; [reflexivity|]. now exists file, fn. }
  destruct (is_remote imagePath) eqn:Hrem; cbv zeta.
  - assert (Hget : forall out, upload_event tok imagePath
                                 (EFetch (GET imagePath) out)).
    { intros out. now split. }
    destruct (fetch_of w t (GET imagePath)) as [resp|e].
    + destruct (negb (resp_ok resp) || _).
      * eexists [_]. split; [reflexivity|]. split; [|cbn; lia].
        constructor; [apply Hget | constructor].
      * destruct (pathname_of w imagePath).
        -- cbn [fst snd]. rewrite <- app_assoc. eexists [_; _].
           split; [reflexivity|]. split; [|cbn; lia].
           constructor; [apply Hget|].
           constructor; [apply Hform | constructor].
        -- eexists [_]. split; [reflexivity|]. split; [|cbn; lia].
           constructor; [apply Hget | constructor].
    + eexists [_]. split; [reflexivity|]. split; [|cbn; lia].
      constructor; [apply Hget | constructor].
  - assert (Hread : forall out, upload_event tok imagePath
                                  (EFile imagePath out)).
    { intros out. now split. }
    destruct (file_of w t imagePath).
    + cbn [fst snd]. rewrite <- app_assoc. eexists [_; _].
      split; [reflexivity|]. split; [|cbn; lia].
      constructor; [apply Hread|].
      constructor; [apply Hform | constructor].
    + eexists [_]. split; [reflexivity|]. split; [|cbn; lia].
      constructor; [apply Hread | constructor].
Qed.

Lemma upload_images_events w tok images :
  forall acc t,
  exists d,
    snd (upload_images tok images acc w t) = (t ++ d)%list /\
    Forall (fun ev => exists imagePath,
                In imagePath images /\ upload_event tok imagePath ev) d /\
    (length d <= 2 * length images)%nat /\
    (forall ids, fst (upload_images tok images acc w t) = Ok ids ->
                 length ids = (length acc + length images)%nat).
Proof.
  induction images as [|i l IH]; intros acc t.
  - exists []. cbn. rewrite app_nil_r. repeat split; auto.
    intros ids E. injection E as <-. lia.
  - cbn [upload_images]. unfold bind at 1 2.
    destruct (uploadPermanentMaterial_events w t tok i) as (d1 & Hd1 & He1 & Hl1).
    destruct (uploadPermanentMaterial tok i image None w t) as [[m|e] t1];
      cbn [snd] in Hd1; subst t1.
    + destruct (IH (acc ++ [m])%list (t ++ d1)%list) as (d2 & Hd2 & He2 & Hl2 & Hn).
      exists (d1 ++ d2)%list. split; [now rewrite Hd2, app_assoc|].
      split; [|split].
      * apply Forall_app. split.
        -- eapply Forall_impl; [|exact He1]. intros ev Hev.
           exists i. split; [now left | exact Hev].
        -- eapply Forall_impl; [|exact He2]. intros ev (p & Hp & Hev).
           exists p. split; [now right | exact Hev].
      * rewrite length_app. cbn [length]. lia.
      * intros ids E. rewrite (Hn ids E), length_app. cbn [length]. lia.
    + exists d1. split; [reflexivity|]. split; [|split].
      * eapply Forall_impl; [|exact He1]. intros ev Hev.
        exists i. split; [now left | exact Hev].
      * cbn [length]. lia.
      * intros ids E. discriminate.
Qed.

(** X4: one [publish_image_message] invocation makes at most 2n + 2
    outbound calls for n images (the token request, a source and an upload
    call per image, the draft request), whatever the world answers. *)
Theorem image_message_call_volume w t args :
  exists d,
    snd (callTool (mkCall "publish_image_message" args) w t) = (t ++ d)%list /\
    (length d <= 2 * length (images_or_empty (arg args arg_images)) + 2)%nat.
Proof.
  rewrite callTool_image_message. unfold publish_image_message.
  rewrite !bind_getenv.
  destruct (env_falsy _ || env_falsy _).
  { exists []. cbn. rewrite app_nil_r. split; [reflexivity | lia]. }
  destruct (str_falsy _ || str_falsy _ || _).
  { exists []. cbn. rewrite app_nil_r. split; [reflexivity | lia]. }
  set (images := images_or_empty (arg args arg_images)).
  unfold bind at 1. rewrite getAccessToken_run. cbv zeta.
  destruct (settle token_of_data _) as [tok|e].
  - unfold bind at 1.
    match goal with
    | |- context [upload_images tok images [] w ?t0] =>
        destruct (upload_images_events w tok images [] t0)
          as (d & Hd & _ & Hl & _);
        destruct (upload_images tok images [] w t0) as [[ids|e] t1]
    end; cbn [snd] in Hd; subst t1.
    + unfold bind at 1. rewrite publishImageMessageToDraft_run. cbv zeta.
      eexists ([_] ++ d ++ [_])%list. split.
      * destruct (settle _ _); cbn [snd ret]; now rewrite <- !app_assoc.
      * cbn [length app]. rewrite length_app. cbn [length]. lia.
    + eexists ([_] ++ d)%list. split.
      * cbn [snd]. now rewrite <- !app_assoc.
      * cbn [length app]. lia.
  - eexists [_]. split; [reflexivity|]. cbn [length]. lia.
Qed.

(** X5: past the token request, every outbound call of an image-message
    invocation is one of: the download of a listed image that is a URL, the
    read of a listed image that is a path, an upload to the
    permanent-material endpoint with [type=image] whose form has the single
    field [media], or a draft request carrying the call's title and content
    and exactly as many media ids as there are images.  Every upload and
    draft request bears the token just obtained; no description field is
    sent and neither collaborator of [publish_article] is called. *)
Theorem image_flow_events
    w t appId appSecret title content images th tok t0 :
  env_set w "WECHAT_APP_ID" appId ->
  env_set w "WECHAT_APP_SECRET" appSecret ->
  title <> "" -> content <> "" -> images <> [] ->
  getAccessToken appId appSecret w t = (Ok tok, t0) ->
  exists d,
    snd (callTool (mkCall "publish_image_message"
                     (Some (mkArgs (Some title) (Some content)
                                   (Some images) th))) w t)
      = (t0 ++ d)%list /\
    Forall (image_flow_event tok title content images) d.
Proof.
  intros Hid Hsec Ht Hc Hi Htok. rewrite callTool_image_message.
  rewrite (publish_image_message_run _ _ _ _ _ _ _ _ Hid Hsec Ht Hc Hi).
  unfold bind at 1. rewrite Htok. unfold bind at 1.
  destruct (upload_images_events w tok images [] t0) as (d & Hd & He & _ & Hn).
  destruct (upload_images tok images [] w t0) as [[ids|e] t1];
    cbn [snd] in Hd; subst t1.
  - unfold bind at 1. rewrite publishImageMessageToDraft_run. cbv zeta.
    eexists (d ++ [_])%list. split.
    + destruct (settle _ _); cbn [snd ret]; now rewrite <- app_assoc.
    + apply Forall_app. split.
      * eapply Forall_impl; [|exact He]. intros ev H. now left.
      * constructor; [|constructor]. right. split; [reflexivity|].
        exists ids. split; [reflexivity|]. now rewrite (Hn ids eq_refl).
  - exists d. split; [reflexivity|].
    eapply Forall_impl; [|exact He]. intros ev H. now left.
Qed.

Lemma image_flow_events_witness :
  exists t0 d,
    snd (callTool (image_call "t" "c" ["https://x/y/pic.png"; "/local/a.jpg"])
           (platform_world 0) []) = (t0 ++ d)%list /\
    length d = 5%nat /\
    Forall (image_flow_event (VStr "TOKEN") "t" "c"
              ["https://x/y/pic.png"; "/local/a.jpg"]) d.
Proof.
  edestruct (image_flow_events (platform_world 0) [] "wx1" "s3cret" "t" "c"
               ["https://x/y/pic.png"; "/local/a.jpg"] None (VStr "TOKEN"))
    as (d & Hd & He).
  - now apply credentials_id.
  - now apply credentials_secret.
  - discriminate.
  - discriminate.
  - discriminate.
  - vm_compute; reflexivity.
  - eexists _, d. split; [exact Hd|]. split; [|exact He].
    unfold image_call in Hd. vm_compute in Hd.
    apply (f_equal (@length Event)) in Hd. cbn [length] in Hd.
    injection Hd as Hd. symmetry. exact Hd.
Defined.

(* ================================================================== *)
(** ** The article tool, the theme list and the dispatch *)
(* ================================================================== *)

Lemma String_or_empty_nullish x : String_or_empty x = nullish x "".
Proof.
  destruct x as [s|]; [|reflexivity]. cbn. unfold str_falsy.
  destruct (String.eqb_spec s ""); congruence.
Qed.

Lemma callTool_article w t args :
  callTool (mkCall "publish_article" args) w t = publish_article args w t.
Proof. reflexivity. Qed.

(** X6: when the content formatter throws, [publish_article] fails with the
    formatter's error and the draft publisher is never called. *)
Theorem formatter_failure_stops_the_article w t args e :
  let content := nullish (arg args arg_content) "" in
  let themeId := nullish (arg args arg_theme_id) "" in
  format_of w t content themeId "solarized-light" true true = Err e ->
  callTool (mkCall "publish_article" args) w t =
    (Err e,
     (t ++ [EFormat content themeId "solarized-light" true true (Err e)])%list).
Proof.
  intros content themeId Hf. subst content themeId.
  rewrite callTool_article. unfold publish_article.
  rewrite !String_or_empty_nullish. run_monad. now rewrite Hf.
Qed.

Lemma formatter_failure_stops_the_article_witness :
  callTool (mkCall "publish_article"
              (Some (mkArgs None (Some "# Hi") None (Some "nope"))))
           broken_formatter_world [] =
    (Err "theme not found",
     [EFormat "# Hi" "nope" "solarized-light" true true
              (Err "theme not found")]).
Proof.
  exact (formatter_failure_stops_the_article broken_formatter_world []
           (Some (mkArgs None (Some "# Hi") None (Some "nope")))
           "theme not found" eq_refl).
Defined.

(** X7: [publish_article] hands the content and the theme id to the
    formatter as given (an absent one as the empty string), always with the
    highlight style [solarized-light] and both flags set, then calls the
    draft publisher once with the formatter's body, its title or
    ["this is title"] when it found none, and its cover or the empty
    string.  A publisher error is the call's error; otherwise the call
    returns one text block naming the [media_id] of the publisher's
    answer. *)
Theorem article_flow w t args g :
  let content := nullish (arg args arg_content) "" in
  let themeId := nullish (arg args arg_theme_id) "" in
  format_of w t content themeId "solarized-light" true true = Ok g ->
  let t1 := (t ++ [EFormat content themeId "solarized-light" true true
                     (Ok g)])%list in
  let title := nullish (gzh_title g) "this is title" in
  let cover := nullish (gzh_cover g) "" in
  let out := publish_of w t1 title (gzh_content g) cover in
  snd (callTool (mkCall "publish_article" args) w t)
    = (t1 ++ [EPublish title (gzh_content g) cover out])%list /\
  (forall e, out = Err e ->
     fst (callTool (mkCall "publish_article" args) w t) = Err e) /\
  (forall r, out = Ok r -> readable r ->
     fst (callTool (mkCall "publish_article" args) w t)
       = Ok [mkBlock "text"
               (Plain (article_published (field "media_id" r)))]).
Proof.
  intros content themeId Hf t1 title cover out.
  subst content themeId t1 title cover out.
  rewrite callTool_article. unfold publish_article.
  rewrite !String_or_empty_nullish. run_monad. rewrite Hf.
  destruct (publish_of w _ _ _ _) as [r|e] eqn:Hp.
  - split; [|split].
    + now destruct (prop r "media_id").
    + intros e He. discriminate.
    + intros r' Hr' Hread. injection Hr' as <-.
      now rewrite (field_prop _ _ Hread).
  - split; [reflexivity|]. split.
    + intros e' He'. now injection He' as <-.
    + intros r Hr. discriminate.
Qed.

Lemma article_flow_witness :
  callTool (mkCall "publish_article"
              (Some (mkArgs None (Some "# Hi") None None)))
           article_world [] =
    (Ok [mkBlock "text" (Plain (article_published (VStr "ART1")))],
     [EFormat "# Hi" "" "solarized-light" true true
        (Ok (mkGzh (Some "Hello") (Some "cover.png")
                   "<section># Hi</section>"));
      EPublish "Hello" "<section># Hi</section>" "cover.png"
        (Ok (VObj [("media_id", VStr "ART1")]))]).
Proof.
  destruct (article_flow article_world []
              (Some (mkArgs None (Some "# Hi") None None)) _ eq_refl)
    as (Ht & _ & Hr).
  rewrite (surjective_pairing (callTool _ _ _)).
  rewrite Ht, (Hr _ eq_refl (readable_obj _)). reflexivity.
Defined.

(** X8: [publish_article] has no presence check on the publisher's answer:
    when the answer is an object without [media_id] the call still reports
    success, and the text names the media id as [undefined]. *)
Theorem article_success_without_media_id w t args g fields :
  let content := nullish (arg args arg_content) "" in
  let themeId := nullish (arg args arg_theme_id) "" in
  format_of w t content themeId "solarized-light" true true = Ok g ->
  publish_of w
    (t ++ [EFormat content themeId "solarized-light" true true (Ok g)])%list
    (nullish (gzh_title g) "this is title") (gzh_content g)
    (nullish (gzh_cover g) "") = Ok (VObj fields) ->
  lookup "media_id" fields = VUndefined ->
  fst (callTool (mkCall "publish_article" args) w t) =
    Ok [mkBlock "text"
          (Plain "Your article was successfully published to '公众号草稿箱'. The media ID is undefined.")].
Proof.
  intros content themeId Hf Hp Hm. subst content themeId.
  rewrite callTool_article. unfold publish_article.
  rewrite !String_or_empty_nullish. run_monad. rewrite Hf, Hp.
  cbn [prop fst]. rewrite Hm. reflexivity.
Qed.

Lemma article_success_without_media_id_witness :
  fst (callTool (mkCall "publish_article"
                   (Some (mkArgs None (Some "# Hi") None None)))
         no_media_id_world []) =
    Ok [mkBlock "text"
          (Plain "Your article was successfully published to '公众号草稿箱'. The media ID is undefined.")].
Proof.
  exact (article_success_without_media_id no_media_id_world []
           (Some (mkArgs None (Some "# Hi") None None)) _ _
           eq_refl eq_refl eq_refl).
Defined.

(** X9: [list_themes] never fails and makes no outbound call, whatever its
    arguments: it returns one text block per theme of the catalog, in
    catalog order, each the JSON record of that theme's [id], [name] and
    [description]. *)
Theorem list_themes_blocks w t args :
  exists blocks,
    callTool (mkCall "list_themes" args) w t = (Ok blocks, t) /\
    length blocks = length (themes w) /\
    forall i th,
      nth_error (themes w) i = Some th ->
      exists v,
        nth_error blocks i = Some (mkBlock "text" (Stringified v)) /\
        field "id" v = VStr (theme_id th) /\
        field "name" v = VStr (theme_name th) /\
        field "description" v = VStr (theme_description th).
Proof.
  eexists. split; [reflexivity|]. split; [apply length_map|].
  intros i th Hi. eexists. rewrite nth_error_map, Hi. cbn [option_map].
  split; [reflexivity|]. repeat split.
Qed.

Lemma list_themes_blocks_witness :
  callTool (mkCall "list_themes" None) article_world [] =
    (Ok [mkBlock "text"
           (Stringified (VObj [("id", VStr "default");
                               ("name", VStr "Default");
                               ("description", VStr "The default theme")]));
         mkBlock "text"
           (Stringified (VObj [("id", VStr "lapis");
                               ("name", VStr "Lapis");
                               ("description", VStr "A blue theme")]))],
     []).
Proof.
  destruct (list_themes_blocks article_world [] None) as (blocks & Hb & _).
  rewrite Hb. apply (f_equal fst) in Hb. cbn [fst] in Hb.
  injection Hb as <-. reflexivity.
Defined.

(** X10: for every tool name other than [publish_image_message] the
    handler itself makes no HTTP request and reads no file: the only calls
    it adds to the trace are calls of the two collaborators, at most two of
    them, and none at all unless the tool is [publish_article].  What the
    collaborators do inside is theirs. *)
Theorem other_tools_only_call_collaborators w t req :
  name req <> "publish_image_message" ->
  exists d,
    snd (callTool req w t) = (t ++ d)%list /\
    Forall (fun ev => is_collaborator_call ev = true) d /\
    (length d <= 2)%nat /\
    (name req <> "publish_article" -> d = []).
Proof.
  intros Hn. unfold callTool.
  destruct (String.eqb_spec (name req) "publish_article") as [Ha|Ha].
  - unfold publish_article. run_monad.
    destruct (format_of w t _ _ "solarized-light" true true) as [g|e].
    + destruct (publish_of w _ _ _ _) as [r|e].
      * eexists [_; _]. split.
        -- destruct (prop r "media_id"); cbn [snd];
             now rewrite <- app_assoc.
        -- split; [now repeat constructor|]. split; [cbn; lia|].
           intros H. contradiction.
      * eexists [_; _]. split; [cbn [snd]; now rewrite <- app_assoc|].
        split; [now repeat constructor|]. split; [cbn; lia|].
        intros H. contradiction.
    + eexists [_]. split; [reflexivity|].
      split; [now repeat constructor|]. split; [cbn; lia|].
      intros H. contradiction.
  - exists []. rewrite app_nil_r.
    destruct (name req =? "list_themes").
    + repeat split; auto; cbn; lia.
    + destruct (String.eqb_spec (name req) "publish_image_message");
        [contradiction|].
      repeat split; auto; cbn; lia.
Qed.

Lemma other_tools_only_call_collaborators_witness :
  exists d,
    snd (callTool (mkCall "publish_article"
                     (Some (mkArgs None (Some "# Hi") None None)))
           article_world []) = d /\
    Forall (fun ev => is_collaborator_call ev = true) d /\
    (length d <= 2)%nat.
Proof.
  destruct (other_tools_only_call_collaborators article_world []
              (mkCall "publish_article"
                 (Some (mkArgs None (Some "# Hi") None None))))
    as (d & Hd & Hall & Hlen & _).
  - discriminate.
  - exists d. split; [exact Hd|]. split; [exact Hall | exact Hlen].
Defined.

(** X11: the tools served are the tools advertised.  A call naming a tool
    that the tool list does not advertise fails with [Unknown tool] and
    makes no outbound call; every advertised tool is dispatched to a
    handler, which can succeed. *)
Theorem advertised_tools_are_served :
  (forall req w t,
      ~ In (name req) (map tool_name listTools) ->
      callTool req w t = (Err unknown_tool, t)) /\
  (forall tool,
      In tool listTools ->
      exists args w blocks,
        fst (callTool (mkCall (tool_name tool) args) w []) = Ok blocks).
Proof.
  split.
  - intros req w t Hn. unfold callTool. cbn in Hn.
    destruct (String.eqb_spec (name req) "publish_article") as [E|_];
      [exfalso; apply Hn; now left|].
    destruct (String.eqb_spec (name req) "list_themes") as [E|_];
      [exfalso; apply Hn; right; now left|].
    destruct (String.eqb_spec (name req) "publish_image_message") as [E|_];
      [exfalso; apply Hn; right; right; now left|].
    reflexivity.
  - intros tool [<-|[<-|[<-|[]]]].
    + exists (Some (mkArgs None (Some "# Hi") None None)), article_world.
      eexists. vm_compute. reflexivity.
    + exists None, article_world. eexists. vm_compute. reflexivity.
    + exists (Some (mkArgs (Some "t") (Some "c") (Some ["/local/a.jpg"]) None)),
             (platform_world 0).
      eexists. vm_compute. reflexivity.
Qed.

Lemma advertised_tools_are_served_witness :
  callTool (mkCall "Publish_Article" None) article_world []
  = (Err unknown_tool, []).
Proof.
  apply (proj1 advertised_tools_are_served). cbn.
  intros [H|[H|[H|[]]]]; discriminate.
Defined.

(* ================================================================== *)
(** ** Further properties of the permanent-material uploader *)
(* ================================================================== *)

(** X12: when the source cannot be obtained, the uploader fails after its
    one source call and makes no upload call.  A remote source answered
    with a non-success status or a null body gives the download error
    naming the URL; a rejected fetch, an unparsable URL and an unreadable
    local file give their own error. *)
Theorem unavailable_source_is_not_uploaded w t tok filePath ty desc :
  (is_remote filePath = true ->
   (forall resp,
       fetch_of w t (GET filePath) = Ok resp ->
       resp_ok resp = false \/ resp_body resp = None ->
       uploadPermanentMaterial tok filePath ty desc w t =
         (Err (download_failed filePath),
          (t ++ [EFetch (GET filePath) (Ok resp)])%list)) /\
   (forall e,
       fetch_of w t (GET filePath) = Err e ->
       uploadPermanentMaterial tok filePath ty desc w t =
         (Err e, (t ++ [EFetch (GET filePath) (Err e)])%list)) /\
   (forall resp body e,
       fetch_of w t (GET filePath) = Ok resp ->
       resp_ok resp = true -> resp_body resp = Some body ->
       pathname_of w filePath = Err e ->
       uploadPermanentMaterial tok filePath ty desc w t =
         (Err e, (t ++ [EFetch (GET filePath) (Ok resp)])%list))) /\
  (is_remote filePath = false ->
   forall e,
     file_of w t filePath = Err e ->
     uploadPermanentMaterial tok filePath ty desc w t =
       (Err e, (t ++ [EFile filePath (Err e)])%list)).
Proof.
  split; intros Hrem; [split; [|split]|].
  - intros resp Hf Hbad.
    rewrite uploadPermanentMaterial_run, resolve_source_run, Hrem.
    cbv zeta. rewrite Hf.
    destruct Hbad as [H|H]; rewrite H; [reflexivity|].
    now rewrite orb_true_r.
  - intros e Hf.
    rewrite uploadPermanentMaterial_run, resolve_source_run, Hrem.
    cbv zeta. now rewrite Hf.
  - intros resp body e Hf Hok Hb Hp.
    rewrite uploadPermanentMaterial_run, resolve_source_run, Hrem.
    cbv zeta. now rewrite Hf, Hok, Hb, Hp.
  - intros e Hf.
    rewrite uploadPermanentMaterial_run, resolve_source_run, Hrem.
    cbv zeta. now rewrite Hf.
Qed.

Lemma unavailable_source_is_not_uploaded_witness :
  uploadPermanentMaterial (VStr "T") "https://x/y/pic.png" image None
    (constant_world token_with_status_500) [] =
    (Err (download_failed "https://x/y/pic.png"),
     [EFetch (GET "https://x/y/pic.png") (Ok token_with_status_500)]) /\
  uploadPermanentMaterial (VStr "T") "/local/a.jpg" image None
    bare_world [] =
    (Err "ENOENT", [EFile "/local/a.jpg" (Err "ENOENT")]).
Proof.
  split.
  - destruct (unavailable_source_is_not_uploaded
                (constant_world token_with_status_500) [] (VStr "T")
                "https://x/y/pic.png" image None) as [H _].
    destruct (H eq_refl) as [H1 _].
    exact (H1 token_with_status_500 eq_refl (or_introl eq_refl)).
  - destruct (unavailable_source_is_not_uploaded bare_world [] (VStr "T")
                "/local/a.jpg" image None) as [_ H].
    exact (H eq_refl "ENOENT" eq_refl).
Defined.

(** X13: the description is sent for videos only.  For an image the
    uploader behaves as if no description were given; for a video with a
    description the form carries a second field [description], the JSON of
    the description, after [media]. *)
Theorem description_only_for_video w t tok filePath d :
  uploadPermanentMaterial tok filePath image (Some d) w t
    = uploadPermanentMaterial tok filePath image None w t /\
  (forall src t1,
      resolve_source filePath video w t = (Ok src, t1) ->
      exists out out',
        snd (uploadPermanentMaterial tok filePath video (Some d) w t) =
          (t1 ++ [EFetch (POST_form (material_url tok video)
                            [mkField "media" (fst src) (Some (snd src));
                             mkField "description" (JsonText d) None])
                         out])%list /\
        snd (uploadPermanentMaterial tok filePath video None w t) =
          (t1 ++ [EFetch (POST_form (material_url tok video)
                            [mkField "media" (fst src) (Some (snd src))])
                         out'])%list).
Proof.
  split; [reflexivity|].
  intros src t1 Hs. rewrite !uploadPermanentMaterial_run, Hs. cbv zeta.
  eexists _, _. split; reflexivity.
Qed.

Lemma description_only_for_video_witness :
  exists out,
    snd (uploadPermanentMaterial (VStr "TOKEN") "/local/clip.mp4" video
           (Some (VObj [("title", VStr "Clip")])) (platform_world 0) []) =
      [EFile "/local/clip.mp4" (Ok "content of /local/clip.mp4");
       EFetch (POST_form (material_url (VStr "TOKEN") video)
                 [mkField "media"
                    (FileOf "/local/clip.mp4" "content of /local/clip.mp4")
                    (Some "clip.mp4");
                  mkField "description"
                    (JsonText (VObj [("title", VStr "Clip")])) None])
              out].
Proof.
  destruct (description_only_for_video (platform_world 0) [] (VStr "TOKEN")
              "/local/clip.mp4" (VObj [("title", VStr "Clip")])) as [_ H].
  destruct (H (FileOf "/local/clip.mp4" "content of /local/clip.mp4",
               "clip.mp4")
              [EFile "/local/clip.mp4" (Ok "content of /local/clip.mp4")]
              eq_refl) as (out & _ & Ho & _).
  exists out. exact Ho.
Defined.

Lemma final_segment_no_slash seg p : final_segment seg p -> no_slash seg = true.
Proof. now intros (_ & _ & H & _). Qed.

Lemma remote_filename_safe urlPath ty :
  no_slash (remote_filename urlPath ty) = true /\
  remote_filename urlPath ty <> "".
Proof.
  destruct (remote_filename_final_segment urlPath ty) as (seg & Hseg & ->).
  destruct (String.eqb_spec seg "") as [->|Hne].
  - destruct ty; cbn; (split; [reflexivity | discriminate]).
  - split; [exact (final_segment_no_slash _ _ Hseg) | exact Hne].
Qed.

Lemma basename_no_slash p : no_slash (Path.basename p) = true.
Proof.
  destruct (basename_final_segment p) as (q & sl & _ & _ & Hseg & _).
  exact (final_segment_no_slash _ _ Hseg).
Qed.

(** X14: the file name the uploader attaches never contains a path
    separator, and for a remote source it is never empty: every upload
    call of a run carries a [media] name without [/]. *)
Theorem uploaded_name_has_no_separator w t tok filePath ty desc :
  exists d,
    snd (uploadPermanentMaterial tok filePath ty desc w t) = (t ++ d)%list /\
    Forall (fun ev =>
              match ev with
              | EFetch (POST_form _ form) _ =>
                  exists fn, media_filename_of form = Some fn /\
                             no_slash fn = true /\
                             (is_remote filePath = true -> fn <> "")
              | _ => True
              end) d.
Proof.
  rewrite uploadPermanentMaterial_run, resolve_source_run.
  destruct (is_remote filePath) eqn:Hrem; cbv zeta.
  - destruct (fetch_of w t (GET filePath)) as [resp|e].
    + destruct (negb (resp_ok resp) || _).
      * eexists [_]. split; [reflexivity|]. now repeat constructor.
      * destruct (pathname_of w filePath) as [urlPath|e].
        -- cbn [fst snd]. rewrite <- app_assoc. eexists [_; _].
           split; [reflexivity|].
           constructor; [exact I|]. constructor; [|constructor].
           destruct (remote_filename_safe urlPath ty) as [H1 H2].
           eexists. split; [reflexivity|]. now split.
        -- eexists [_]. split; [reflexivity|]. now repeat constructor.
    + eexists [_]. split; [reflexivity|]. now repeat constructor.
  - destruct (file_of w t filePath).
    + cbn [fst snd]. rewrite <- app_assoc. eexists [_; _].
      split; [reflexivity|].
      constructor; [exact I|]. constructor; [|constructor].
      eexists. split; [reflexivity|].
      split; [apply basename_no_slash | discriminate].
    + eexists [_]. split; [reflexivity|]. now repeat constructor.
Qed.

Lemma uploaded_name_has_no_separator_witness :
  exists d,
    snd (uploadPermanentMaterial (VStr "TOKEN") "https://x/y/pic.png" image
           None (platform_world 0) []) = d /\
    Forall (fun ev =>
              match ev with
              | EFetch (POST_form _ form) _ =>
                  exists fn, media_filename_of form = Some fn /\
                             no_slash fn = true /\ fn <> ""
              | _ => True
              end) d.
Proof.
  destruct (uploaded_name_has_no_separator (platform_world 0) []
              (VStr "TOKEN") "https://x/y/pic.png" image None)
    as (d & Hd & Hall).
  exists d. split; [exact Hd|].
  eapply Forall_impl; [|exact Hall].
  intros [[u|u form|u body] out| | |]; try exact (fun H => H).
  intros (fn & H1 & H2 & H3). exists fn. auto.
Defined.

Lemma all_slashes_append s1 s2 :
  all_slashes (s1 ++ s2) = all_slashes s1 && all_slashes s2.
Proof.
  induction s1 as [|a s IH]; cbn; [reflexivity|].
  now rewrite IH, andb_assoc.
Qed.

Lemma all_slashes_no_slash s :
  all_slashes s = true -> no_slash s = true -> s = "".
Proof.
  destruct s as [|a s]; [reflexivity|]. cbn.
  destruct (Ascii.eqb a "/"); discriminate.
Qed.

Lemma basename_empty_iff p :
  Path.basename p = "" <-> all_slashes p = true.
Proof.
  destruct (basename_final_segment p)
    as (q & sl & Hp & Hsl & (pre & Hq & Hns & _) & Hempty).
  split.
  - intros E. rewrite (Hempty E) in Hp. cbn in Hp. now subst p.
  - intros Hall. rewrite Hp, Hq, !all_slashes_append in Hall.
    apply andb_prop in Hall as [Hall _].
    apply andb_prop in Hall as [_ Hall].
    now apply all_slashes_no_slash.
Qed.

(** X15: a local source is uploaded under an empty file name exactly when
    its path is empty or made of separators only; no check guards the
    upload against it. *)
Theorem local_name_empty_iff_only_separators w t tok filePath ty desc bytes :
  is_remote filePath = false ->
  file_of w t filePath = Ok bytes ->
  exists fn more out,
    snd (uploadPermanentMaterial tok filePath ty desc w t) =
      (t ++ [EFile filePath (Ok bytes);
             EFetch (POST_form (material_url tok ty)
                       (mkField "media" (FileOf filePath bytes) (Some fn)
                          :: more)) out])%list /\
    (fn = "" <-> all_slashes filePath = true).
Proof.
  intros Hloc Hf.
  rewrite uploadPermanentMaterial_run, resolve_source_run, Hloc.
  cbv zeta. rewrite Hf. cbn [fst snd]. unfold build_form.
  rewrite <- app_assoc. eexists _, _, _. split; [reflexivity|].
  apply basename_empty_iff.
Qed.

Lemma local_name_empty_iff_only_separators_witness :
  exists more out,
    snd (uploadPermanentMaterial (VStr "TOKEN") "//" image None
           (platform_world 0) []) =
      [EFile "//" (Ok "content of //");
       EFetch (POST_form (material_url (VStr "TOKEN") image)
                 (mkField "media" (FileOf "//" "content of //") (Some "")
                    :: more)) out].
Proof.
  destruct (local_name_empty_iff_only_separators (platform_world 0) []
              (VStr "TOKEN") "//" image None "content of //"
              eq_refl eq_refl) as (fn & more & out & Ht & Hfn).
  rewrite (proj2 Hfn eq_refl) in Ht.
  exists more, out. exact Ht.
Defined.

(* ================================================================== *)
(** ** Transport, status and messages in the helpers *)
(* ================================================================== *)

(** X16: the credential client and the draft composer never look at the
    HTTP status: each makes its decision on the parsed body alone, so two
    answers with the same JSON give the same result whatever their status,
    [ok] flag or raw text. *)
Theorem token_and_draft_decide_on_the_body w t w' t' resp resp' :
  resp_json resp = resp_json resp' ->
  (forall appId appSecret,
      fetch_of w t (GET (token_url appId appSecret)) = Ok resp ->
      fetch_of w' t' (GET (token_url appId appSecret)) = Ok resp' ->
      fst (getAccessToken appId appSecret w t)
        = fst (getAccessToken appId appSecret w' t')) /\
  (forall tok title content ids,
      fetch_of w t (POST_json (draft_url tok)
                      (requestBody title content ids)) = Ok resp ->
      fetch_of w' t' (POST_json (draft_url tok)
                        (requestBody title content ids)) = Ok resp' ->
      fst (publishImageMessageToDraft tok title content ids w t)
        = fst (publishImageMessageToDraft tok title content ids w' t')).
Proof.
  intros Hj. split.
  - intros appId appSecret Hf Hf'. rewrite !getAccessToken_run. cbn [fst].
    rewrite Hf, Hf'. unfold settle. now rewrite Hj.
  - intros tok title content ids Hf Hf'.
    rewrite !publishImageMessageToDraft_run. cbn [fst].
    rewrite Hf, Hf'. unfold settle. now rewrite Hj.
Qed.

Lemma token_and_draft_decide_on_the_body_witness :
  fst (getAccessToken "wx1" "s3cret"
         (constant_world token_with_status_500) [])
  = fst (getAccessToken "wx1" "s3cret"
           (constant_world
              (json_response true 200 (VObj [("access_token", VStr "T")])))
           []).
Proof.
  destruct (token_and_draft_decide_on_the_body
              (constant_world token_with_status_500) []
              (constant_world
                 (json_response true 200 (VObj [("access_token", VStr "T")])))
              [] token_with_status_500
              (json_response true 200 (VObj [("access_token", VStr "T")]))
              eq_refl) as [H _].
  exact (H "wx1" "s3cret" eq_refl eq_refl).
Defined.

(** X17: the credential client and the draft composer make a single
    attempt.  Each run adds exactly one request to the trace; a rejected
    fetch or a body that is not JSON surfaces as the run's error, and a
    body that is JSON [null] is a failure too. *)
Theorem single_attempt_no_retry w t :
  (forall appId appSecret,
      let req := GET (token_url appId appSecret) in
      snd (getAccessToken appId appSecret w t)
        = (t ++ [EFetch req (fetch_of w t req)])%list /\
      (forall e, fetch_of w t req = Err e ->
                 fst (getAccessToken appId appSecret w t) = Err e) /\
      (forall resp e, fetch_of w t req = Ok resp -> resp_json resp = Err e ->
                      fst (getAccessToken appId appSecret w t) = Err e) /\
      (forall resp, fetch_of w t req = Ok resp -> resp_json resp = Ok VNull ->
                    failed (fst (getAccessToken appId appSecret w t)))) /\
  (forall tok title content ids,
      let req := POST_json (draft_url tok) (requestBody title content ids) in
      snd (publishImageMessageToDraft tok title content ids w t)
        = (t ++ [EFetch req (fetch_of w t req)])%list /\
      (forall e, fetch_of w t req = Err e ->
                 fst (publishImageMessageToDraft tok title content ids w t)
                   = Err e) /\
      (forall resp e, fetch_of w t req = Ok resp -> resp_json resp = Err e ->
                      fst (publishImageMessageToDraft tok title content ids w t)
                        = Err e) /\
      (forall resp, fetch_of w t req = Ok resp -> resp_json resp = Ok VNull ->
                    failed (fst (publishImageMessageToDraft tok title content
                                   ids w t)))).
Proof.
  split.
  - intros appId appSecret req. subst req. rewrite getAccessToken_run.
    cbv zeta. cbn [fst snd]. split; [reflexivity|]. repeat split.
    + intros e ->. reflexivity.
    + intros resp e -> Hj. cbn. now rewrite Hj.
    + intros resp -> Hj. cbn. rewrite Hj. cbn. auto.
  - intros tok title content ids req. subst req.
    rewrite publishImageMessageToDraft_run.
    cbv zeta. cbn [fst snd]. split; [reflexivity|]. repeat split.
    + intros e ->. reflexivity.
    + intros resp e -> Hj. cbn. now rewrite Hj.
    + intros resp -> Hj. cbn. rewrite Hj. cbn. auto.
Qed.

Lemma single_attempt_no_retry_witness :
  getAccessToken "wx1" "s3cret" offline_world []
  = (Err "fetch failed",
     [EFetch (GET (token_url "wx1" "s3cret")) (Err "fetch failed")]).
Proof.
  destruct (proj1 (single_attempt_no_retry offline_world []) "wx1" "s3cret")
    as (Ht & He & _).
  rewrite (surjective_pairing (getAccessToken _ _ _ _)).
  rewrite Ht, (He "fetch failed" eq_refl). reflexivity.
Defined.

(** X18: a platform error surfaces verbatim from the uploader and the draft
    composer: with a truthy [errcode] in the body, the failure message is
    the helper's prefix followed by [errmsg], or by the code itself when
    [errmsg] is absent or empty. *)
Theorem platform_error_message_surfaces w t resp data :
  resp_json resp = Ok data ->
  readable data ->
  truthy (field "errcode" data) = true ->
  let detail :=
    toString (or_else (field "errmsg" data) (field "errcode" data)) in
  (forall tok filePath ty desc src t1,
      resolve_source filePath ty w t = (Ok src, t1) ->
      fetch_of w t1 (POST_form (material_url tok ty)
                       (build_form (fst src) (snd src) ty desc)) = Ok resp ->
      resp_ok resp = true ->
      fst (uploadPermanentMaterial tok filePath ty desc w t)
        = Err (upload_failed ++ detail)) /\
  (forall tok title content ids,
      fetch_of w t (POST_json (draft_url tok)
                      (requestBody title content ids)) = Ok resp ->
      fst (publishImageMessageToDraft tok title content ids w t)
        = Err (draft_failed ++ detail)) /\
  (forall msg, field "errmsg" data = VStr msg -> msg <> "" -> detail = msg) /\
  (forall code, field "errcode" data = VNum code ->
                truthy (field "errmsg" data) = false ->
                detail = string_of_Z code).
Proof.
  intros Hj Hr Hc detail. subst detail. repeat split.
  - intros tok filePath ty desc src t1 Hs Hf Hok.
    rewrite uploadPermanentMaterial_run, Hs. cbv zeta. cbn [fst].
    rewrite Hf. unfold settle_upload, settle. rewrite Hok, Hj. cbn [negb].
    now rewrite (media_id_of_data_readable _ _ _ Hr), Hc.
  - intros tok title content ids Hf.
    rewrite publishImageMessageToDraft_run. cbn [fst].
    rewrite Hf. unfold settle. rewrite Hj.
    now rewrite (media_id_of_data_readable _ _ _ Hr), Hc.
  - intros msg Hm Hne. unfold or_else. rewrite Hm. cbn.
    apply String.eqb_neq in Hne. now rewrite Hne.
  - intros code Hcode Hm. unfold or_else. now rewrite Hm, Hcode.
Qed.

Lemma platform_error_message_surfaces_witness :
  fst (uploadPermanentMaterial (VStr "T") "/local/a.jpg" image None
         (constant_world quota_exceeded) [])
    = Err (upload_failed ++ "reach max api daily quota limit") /\
  fst (publishImageMessageToDraft (VStr "T") "t" "c" [VStr "M"]
         (constant_world
            (json_response true 200 (VObj [("errcode", VNum 45009)]))) [])
    = Err (draft_failed ++ "45009").
Proof.
  split.
  - destruct (platform_error_message_surfaces (constant_world quota_exceeded)
                [] quota_exceeded _ eq_refl (readable_obj _) eq_refl)
      as (H & _).
    exact (H (VStr "T") "/local/a.jpg" image None _ _
             eq_refl eq_refl eq_refl).
  - destruct (platform_error_message_surfaces
                (constant_world
                   (json_response true 200 (VObj [("errcode", VNum 45009)])))
                [] (json_response true 200 (VObj [("errcode", VNum 45009)]))
                _ eq_refl (readable_obj _) eq_refl)
      as (_ & H & _).
    exact (H (VStr "T") "t" "c" [VStr "M"] eq_refl).
Defined.

(* ================================================================== *)
(** ** The temporary-image upload *)
(* ================================================================== *)

Lemma resolve_image_run w t imagePath :
  resolve_image imagePath w t =
    if is_remote imagePath then
      let out := fetch_of w t (GET imagePath) in
      (match out with
       | Ok resp =>
           if negb (resp_ok resp) ||
              match resp_body resp with Some _ => false | None => true end
           then Err (image_download_failed imagePath)
           else match pathname_of w imagePath with
                | Ok urlPath =>
                    Ok (Blob (resp_text resp), remote_filename urlPath image)
                | Err e => Err e
                end
       | Err e => Err e
       end, (t ++ [EFetch (GET imagePath) out])%list)
    else
      let out := file_of w t imagePath in
      (match out with
       | Ok b => Ok (FileOf imagePath b, Path.basename imagePath)
       | Err e => Err e
       end, (t ++ [EFile imagePath out])%list).
Proof.
  unfold resolve_image, is_remote.
  destruct (startsWith imagePath "http://" || startsWith imagePath "https://");
    cbv zeta; run_monad.
  - destruct (fetch_of w t (GET imagePath)) as [resp|e]; [|reflexivity].
    destruct (negb (resp_ok resp) || _); [reflexivity|].
    destruct (pathname_of w imagePath); reflexivity.
  - destruct (file_of w t imagePath); reflexivity.
Qed.

Lemma uploadImage_run w t tok imagePath :
  uploadImage tok imagePath w t =
    match resolve_image imagePath w t with
    | (Ok src, t1) =>
        let req := POST_form (uploadimg_url tok)
                             [mkField "media" (fst src) (Some (snd src))] in
        (settle url_of_data (fetch_of w t1 req),
         (t1 ++ [EFetch req (fetch_of w t1 req)])%list)
    | (Err e, t1) => (Err e, t1)
    end.
Proof.
  unfold uploadImage, bind at 1.
  destruct (resolve_image imagePath w t) as [[src|e] t1]; [|reflexivity].
  cbv zeta. run_monad. unfold settle.
  destruct (fetch_of w t1 _) as [resp|e]; [|reflexivity].
  destruct (resp_json resp); reflexivity.
Qed.

Lemma resolve_image_source w t imagePath src t1 :
  resolve_image imagePath w t = (Ok src, t1) <->
  resolve_source imagePath image w t = (Ok src, t1).
Proof.
  rewrite resolve_image_run, resolve_source_run.
  destruct (is_remote imagePath); cbv zeta; [|reflexivity].
  destruct (fetch_of w t (GET imagePath)) as [resp|e]; [|reflexivity].
  destruct (negb (resp_ok resp) || _); [|reflexivity].
  split; intros H; discriminate.
Qed.

(** X19: [uploadImage] and the permanent-material uploader for images
    obtain their file in the same way.  Whenever [uploadImage] reaches its
    upload call, the permanent uploader started in the same state makes the
    same source call and posts the very same one-field form (same bytes,
    same file name), to its own endpoint. *)
Theorem uploadImage_posts_the_same_form w t tok imagePath src t1 :
  resolve_image imagePath w t = (Ok src, t1) ->
  let form := [mkField "media" (fst src) (Some (snd src))] in
  exists out out',
    snd (uploadImage tok imagePath w t)
      = (t1 ++ [EFetch (POST_form (uploadimg_url tok) form) out])%list /\
    snd (uploadPermanentMaterial tok imagePath image None w t)
      = (t1 ++ [EFetch (POST_form (material_url tok image) form) out'])%list.
Proof.
  intros Hs form. subst form.
  rewrite uploadImage_run, uploadPermanentMaterial_run, Hs.
  apply resolve_image_source in Hs. rewrite Hs. cbv zeta.
  eexists _, _. split; reflexivity.
Qed.

Lemma uploadImage_posts_the_same_form_witness :
  exists out out',
    snd (uploadImage (VStr "TOKEN") "https://x/" (platform_world 0) [])
      = [EFetch (GET "https://x/")
           (Ok (mkResponse true 200 (Some "png-bytes") (Err "not JSON")));
         EFetch (POST_form (uploadimg_url (VStr "TOKEN"))
                   [mkField "media" (Blob "png-bytes") (Some "image.jpg")])
                out] /\
    snd (uploadPermanentMaterial (VStr "TOKEN") "https://x/" image None
           (platform_world 0) [])
      = [EFetch (GET "https://x/")
           (Ok (mkResponse true 200 (Some "png-bytes") (Err "not JSON")));
         EFetch (POST_form (material_url (VStr "TOKEN") image)
                   [mkField "media" (Blob "png-bytes") (Some "image.jpg")])
                out'].
Proof.
  exact (uploadImage_posts_the_same_form (platform_world 0) [] (VStr "TOKEN")
           "https://x/" (Blob "png-bytes", "image.jpg")
           [EFetch (GET "https://x/")
              (Ok (mkResponse true 200 (Some "png-bytes") (Err "not JSON")))]
           eq_refl).
Defined.

(** X20: [uploadImage] decides on the parsed body alone, whatever the HTTP
    status: a truthy [errcode] is a failure carrying [errmsg] or the code,
    a missing or empty [url] is the url-missing failure, and otherwise the
    body's [url] is returned. *)
Theorem uploadImage_outcome w t tok imagePath src t1 resp data :
  resolve_image imagePath w t = (Ok src, t1) ->
  fetch_of w t1 (POST_form (uploadimg_url tok)
                   [mkField "media" (fst src) (Some (snd src))]) = Ok resp ->
  resp_json resp = Ok data ->
  readable data ->
  fst (uploadImage tok imagePath w t) =
    if truthy (field "errcode" data) then
      Err (uploadimg_failed
           ++ toString (or_else (field "errmsg" data) (field "errcode" data)))
    else if truthy (field "url" data) then Ok (field "url" data)
         else Err uploadimg_missing.
Proof.
  intros Hs Hf Hj Hr. rewrite uploadImage_run, Hs. cbv zeta. cbn [fst].
  rewrite Hf. unfold settle. rewrite Hj. unfold url_of_data.
  rewrite !(field_prop _ _ Hr).
  destruct (truthy (field "errcode" data)); [reflexivity|].
  destruct (truthy (field "url" data)); reflexivity.
Qed.

Lemma uploadImage_outcome_witness :
  fst (uploadImage (VStr "T") "/local/a.jpg"
         (constant_world image_url_response) [])
    = Ok (VStr "http://mmbiz.qpic.cn/mmbiz/abc/0").
Proof.
  exact (uploadImage_outcome (constant_world image_url_response) [] (VStr "T")
           "/local/a.jpg" (FileOf "/local/a.jpg" "bytes", "a.jpg")
           [EFile "/local/a.jpg" (Ok "bytes")] image_url_response _
           eq_refl eq_refl eq_refl (readable_obj _)).
Defined.
